(** * crystals.atom

    A shallow embedding of [crystals/atom.py]: chemical elements, atoms
    positioned on a lattice, distances between atoms, the [Subshell]
    enumeration and the [ElectronicStructure] ordered mapping.

    Conventions of the embedding.
    - Python [int] is [Z].  Python/NumPy floating-point numbers are
      idealised as exact rationals [Q]; a Python comparison [x == y] on
      numbers is [Qeq_bool], so no rounding error is modelled.  The only
      irrational operation of the module, the square root taken by
      [np.linalg.norm], lands in [R].  A magnetic moment is a [moment]: a
      number or NaN, which the module stores and compares as it finds
      it.
    - Python [str] is [string]; the strings the module handles are ASCII
      apart from the superscript digits, which are kept as their UTF-8
      bytes.
    - A call that can raise returns a [result]; the exception is a
      constructor of [exn].
    - A method that receives [self] returns the state of [self] after the
      call next to its value whenever [self] is an object the method could
      assign to ([ES_setitem], [Atom_transform]). *)

From Stdlib Require Import String Ascii ZArith QArith Qabs Qround List Bool.
From Stdlib Require Import DecimalString Lia Lqa Field Reals Qreals.
Import ListNotations.

Local Open Scope string_scope.
Local Open Scope Z_scope.

(** ** The Subshell enumeration *)

(** [class Subshell(Enum)]: the members, in the order of the class body. *)
Inductive Subshell : Type :=
| one_s | two_s | two_p | three_s | three_p | four_s | three_d | four_p
| five_s | four_d | five_p | six_s | four_f | five_d | six_p | seven_s
| five_f | six_d | seven_p.

(** [shell.value] *)
Definition value (shell : Subshell) : string :=
  match shell with
  | one_s => "1s" | two_s => "2s" | two_p => "2p" | three_s => "3s"
  | three_p => "3p" | four_s => "4s" | three_d => "3d" | four_p => "4p"
  | five_s => "5s" | four_d => "4d" | five_p => "5p" | six_s => "6s"
  | four_f => "4f" | five_d => "5d" | six_p => "6p" | seven_s => "7s"
  | five_f => "5f" | six_d => "6d" | seven_p => "7p"
  end.

(** [for shell in Subshell]: an [Enum] iterates in definition order. *)
Definition Subshell_members : list Subshell :=
  [ one_s; two_s; two_p; three_s; three_p; four_s; three_d; four_p;
    five_s; four_d; five_p; six_s; four_f; five_d; six_p; seven_s;
    five_f; six_d; seven_p ].

Definition Subshell_eqb (a b : Subshell) : bool :=
  String.eqb (value a) (value b).

(** What a caller may hand over where a subshell is expected: a member
    of the enumeration or a label such as ["1s"]. *)
Inductive shell_key : Type :=
| KShell (shell : Subshell)
| KLabel (label : string).

(** ** Exceptions and results *)

Inductive exn : Type :=
| InvalidElement (symbol : string)
    (* ValueError(f"Element {element} is not valid.") *)
| InvalidPopulation (electrons : Z) (shell : Subshell)
    (* ValueError(f"There cannot be {value} electrons in subshell ...") *)
| InvalidSubshell (label : string)
    (* ValueError raised by Subshell(label) on an unknown label *)
| KeyError_number (n : Z)
| KeyError_symbol (s : string)
| KeyError_shell (shell : shell_key)
| DistanceUndefined
    (* RuntimeError("Distance is undefined if atoms are sitting on
       different lattices.") *)
| LinAlgError.
    (* numpy.linalg.LinAlgError("Singular matrix") *)

Inductive result (A : Type) : Type :=
| Ok (a : A)
| Raise (e : exn).
Arguments Ok {A} a.
Arguments Raise {A} e.

Definition bind {A B : Type} (r : result A) (k : A -> result B) : result B :=
  match r with
  | Ok a => k a
  | Raise e => Raise e
  end.

Notation "x <- r ;; k" := (bind r (fun x => k))
  (at level 61, r at next level, right associativity).

(** ** Strings *)

Definition is_upper (c : ascii) : bool :=
  let n := nat_of_ascii c in (Nat.leb 65 n && Nat.leb n 90)%bool.

Definition is_lower (c : ascii) : bool :=
  let n := nat_of_ascii c in (Nat.leb 97 n && Nat.leb n 122)%bool.

Definition is_cased (c : ascii) : bool := (is_upper c || is_lower c)%bool.

Definition to_upper (c : ascii) : ascii :=
  if is_lower c then ascii_of_nat (nat_of_ascii c - 32) else c.

Definition to_lower (c : ascii) : ascii :=
  if is_upper c then ascii_of_nat (nat_of_ascii c + 32) else c.

(** [str.title()]: a cased character is lowered when the character before
    it is cased and capitalised otherwise. *)
Fixpoint title_from (previous_is_cased : bool) (s : string) : string :=
  match s with
  | EmptyString => EmptyString
  | String c rest =>
      String (if previous_is_cased then to_lower c else to_upper c)
             (title_from (is_cased c) rest)
  end.

Definition title (s : string) : string := title_from false s.

(** [f"{n}"] for an [int]. *)
Definition str_of_int (n : Z) : string :=
  NilZero.string_of_int (Z.to_int n).

(** [s[-1]] *)
Fixpoint last_char (s : string) : option ascii :=
  match s with
  | EmptyString => None
  | String c EmptyString => Some c
  | String _ rest => last_char rest
  end.

(** [superscript_map], as the translation table [superscript_trans] uses
    it: a digit goes to its superscript, any other character to itself. *)
Definition superscript_map (c : ascii) : string :=
  match c with
  | "0"%char => "⁰" | "1"%char => "¹" | "2"%char => "²" | "3"%char => "³"
  | "4"%char => "⁴" | "5"%char => "⁵" | "6"%char => "⁶" | "7"%char => "⁷"
  | "8"%char => "⁸" | "9"%char => "⁹"
  | _ => String c EmptyString
  end.

(** [s.translate(superscript_trans)] *)
Fixpoint translate (s : string) : string :=
  match s with
  | EmptyString => EmptyString
  | String c rest => superscript_map c ++ translate rest
  end.

(** ** Periodic-table data ([atom_data]) *)

(** Modelled from the spec: [atom_data.chemical_symbols], the
    known-valid-symbol set of the periodic-table data source, is defined
    outside [atom.py].  The spec asks for a symbol/atomic-number
    bijection; the table below lists the symbols of the periodic table by
    atomic number, the first being hydrogen. *)
Definition chemical_symbols : list string :=
  [ "H"; "He"; "Li"; "Be"; "B"; "C"; "N"; "O"; "F"; "Ne";
    "Na"; "Mg"; "Al"; "Si"; "P"; "S"; "Cl"; "Ar"; "K"; "Ca";
    "Sc"; "Ti"; "V"; "Cr"; "Mn"; "Fe"; "Co"; "Ni"; "Cu"; "Zn";
    "Ga"; "Ge"; "As"; "Se"; "Br"; "Kr"; "Rb"; "Sr"; "Y"; "Zr";
    "Nb"; "Mo"; "Tc"; "Ru"; "Rh"; "Pd"; "Ag"; "Cd"; "In"; "Sn";
    "Sb"; "Te"; "I"; "Xe"; "Cs"; "Ba"; "La"; "Ce"; "Pr"; "Nd";
    "Pm"; "Sm"; "Eu"; "Gd"; "Tb"; "Dy"; "Ho"; "Er"; "Tm"; "Yb";
    "Lu"; "Hf"; "Ta"; "W"; "Re"; "Os"; "Ir"; "Pt"; "Au"; "Hg";
    "Tl"; "Pb"; "Bi"; "Po"; "At"; "Rn"; "Fr"; "Ra"; "Ac"; "Th";
    "Pa"; "U"; "Np"; "Pu"; "Am"; "Cm"; "Bk"; "Cf"; "Es"; "Fm";
    "Md"; "No"; "Lr"; "Rf"; "Db"; "Sg"; "Bh"; "Hs"; "Mt"; "Ds";
    "Rg"; "Cn"; "Nh"; "Fl"; "Mc"; "Lv"; "Ts"; "Og" ].

(** Modelled from the spec: [atom_data.NUM_TO_ELEM], the atomic-number to
    symbol direction of the bijection; a number outside the table is a
    missing key. *)
Definition NUM_TO_ELEM (n : Z) : option string :=
  if n <=? 0 then None else nth_error chemical_symbols (Z.to_nat (n - 1)).

Fixpoint index_from (i : Z) (s : string) (l : list string) : option Z :=
  match l with
  | [] => None
  | x :: rest => if String.eqb s x then Some i else index_from (i + 1) s rest
  end.

(** Modelled from the spec: [atom_data.ELEM_TO_NUM], the symbol to
    atomic-number direction of the bijection. *)
Definition ELEM_TO_NUM (s : string) : option Z :=
  index_from 1 s chemical_symbols.

(** [Element.valid_symbols = frozenset(chemical_symbols)], through its
    membership test. *)
Definition valid_symbols (s : string) : bool :=
  existsb (String.eqb s) chemical_symbols.

(** ** Element *)

Record Element : Type := mkElement { element : string }.

(** The argument of [Element(...)]: a symbol or an atomic number. *)
Inductive element_arg : Type :=
| Sym (s : string)
| Num (n : Z).

(** [Element.__init__] *)
Definition Element_init (arg : element_arg) : result Element :=
  symbol <- match arg with
            | Num n =>
                match NUM_TO_ELEM n with
                | Some s => Ok s
                | None => Raise (KeyError_number n)
                end
            | Sym s => Ok s
            end ;;
  let symbol := title symbol in
  if negb (valid_symbols symbol) then Raise (InvalidElement symbol)
  else Ok (mkElement symbol).

(** [Element.__eq__] between two elements. *)
Definition Element_eq (self other : Element) : bool :=
  String.eqb (element self) (element other).

(** [Element.atomic_number] *)
Definition atomic_number (self : Element) : result Z :=
  match ELEM_TO_NUM (element self) with
  | Some n => Ok n
  | None => Raise (KeyError_symbol (element self))
  end.

(** [Element.__hash__]: [hash(self.atomic_number)], and the hash of an
    [int] of this size is the [int]. *)
Definition Element_hash (self : Element) : result Z := atomic_number self.

(** ** Subshell capacities *)

Fixpoint find_member (label : string) (members : list Subshell)
  : option Subshell :=
  match members with
  | [] => None
  | m :: rest => if String.eqb (value m) label then Some m
                 else find_member label rest
  end.

(** [Subshell(key)]: a member is returned as it is, a label is looked up
    among the values of the members. *)
Definition Subshell_call (key : shell_key) : result Subshell :=
  match key with
  | KShell shell => Ok shell
  | KLabel label =>
      match find_member label Subshell_members with
      | Some shell => Ok shell
      | None => Raise (InvalidSubshell label)
      end
  end.

(** The dictionary [maxima] of [Subshell.maximum_electrons]. *)
Definition maxima (c : ascii) : option Z :=
  match c with
  | "s"%char => Some 2
  | "p"%char => Some 6
  | "d"%char => Some 10
  | "f"%char => Some 14
  | _ => None
  end.

(** [Subshell.maximum_electrons] *)
Definition maximum_electrons (shell : shell_key) : result Z :=
  shell <- Subshell_call shell ;;
  match last_char (value shell) with
  | Some c =>
      match maxima c with
      | Some m => Ok m
      | None => Raise (KeyError_symbol (String c EmptyString))
      end
  | None => Raise (KeyError_symbol EmptyString)
  end.

(** ** ElectronicStructure *)

(** A Python [dict] keyed by subshells, in insertion order; also the
    contents of the [OrderedDict] an [ElectronicStructure] is. *)
Definition shell_dict : Type := list (Subshell * Z).

(** [shell in d] *)
Fixpoint dict_contains (d : shell_dict) (shell : Subshell) : bool :=
  match d with
  | [] => false
  | (k, _) :: rest => (Subshell_eqb k shell || dict_contains rest shell)%bool
  end.

(** [d[shell]] on a plain [dict] or on the parent [OrderedDict]. *)
Fixpoint dict_get (d : shell_dict) (shell : Subshell) : option Z :=
  match d with
  | [] => None
  | (k, v) :: rest => if Subshell_eqb k shell then Some v
                      else dict_get rest shell
  end.

(** [d[shell] = v] on a plain [dict]: an existing key keeps its place, a
    new key goes last. *)
Fixpoint dict_set (d : shell_dict) (shell : Subshell) (v : Z) : shell_dict :=
  match d with
  | [] => [(shell, v)]
  | (k, w) :: rest =>
      if Subshell_eqb k shell then (k, v) :: rest
      else (k, w) :: dict_set rest shell v
  end.

Record ElectronicStructure : Type :=
  mkES { items : shell_dict }.

(** [ElectronicStructure.__setitem__].  The body checks the value against
    the capacity of the subshell and ends there: nothing is assigned to
    the underlying mapping, so the state of [self] after the call is the
    state before it. *)
Definition ES_setitem (self : ElectronicStructure) (key : shell_key)
  (val : Z) : result ElectronicStructure :=
  shell <- Subshell_call key ;;
  maximum_allowed_electrons <- maximum_electrons (KShell shell) ;;
  if val >? maximum_allowed_electrons
  then Raise (InvalidPopulation val shell)
  else Ok self.

(** [self[key]], inherited from [OrderedDict]: the stored keys are
    members of [Subshell], and a label is not equal to any member. *)
Definition ES_getitem (self : ElectronicStructure) (key : shell_key)
  : result Z :=
  match key with
  | KShell shell =>
      match dict_get (items self) shell with
      | Some v => Ok v
      | None => Raise (KeyError_shell key)
      end
  | KLabel _ => Raise (KeyError_shell key)
  end.

(** [{Subshell(k): v for k, v in shells.items()}] *)
Fixpoint normalize_keys (shells : list (shell_key * Z)) (acc : shell_dict)
  : result shell_dict :=
  match shells with
  | [] => Ok acc
  | (k, v) :: rest =>
      shell <- Subshell_call k ;;
      normalize_keys rest (dict_set acc shell v)
  end.

(** The loop [for shell in Subshell: ...] of the constructor. *)
Fixpoint insert_in_order (members : list Subshell) (shells : shell_dict)
  (self : ElectronicStructure) : result ElectronicStructure :=
  match members with
  | [] => Ok self
  | shell :: rest =>
      if negb (dict_contains shells shell) then
        insert_in_order rest shells self
      else
        match dict_get shells shell with
        | Some v =>
            self <- ES_setitem self (KShell shell) v ;;
            insert_in_order rest shells self
        | None => Raise (KeyError_shell (KShell shell))
        end
  end.

(** [ElectronicStructure.__init__] *)
Definition ES_init (shells : list (shell_key * Z))
  : result ElectronicStructure :=
  let self := mkES [] in
  shells <- normalize_keys shells [] ;;
  insert_in_order Subshell_members shells self.

(** [ElectronicStructure.__str__] *)
Fixpoint ES_str_items (d : shell_dict) (acc : string) : string :=
  match d with
  | [] => acc
  | (shell, occ) :: rest =>
      ES_str_items rest (acc ++ (value shell ++ translate (str_of_int occ)))
  end.

Definition ES_str (self : ElectronicStructure) : string :=
  ES_str_items (items self) "".

(** The loop of [ground_state], which fills the plain dictionary
    [structure]. *)
Fixpoint fill_shells (members : list Subshell) (num_elec : Z)
  (structure : shell_dict) : result shell_dict :=
  match members with
  | [] => Ok structure
  | shell :: rest =>
      capacity <- maximum_electrons (KShell shell) ;;
      let shell_elec := Z.min capacity num_elec in
      let structure := dict_set structure shell shell_elec in
      let num_elec := num_elec - shell_elec in
      if num_elec =? 0 then Ok structure
      else fill_shells rest num_elec structure
  end.

(** The dictionary [structure] at the [return] of [ground_state]. *)
Definition ground_state_structure (arg : element_arg) : result shell_dict :=
  e <- Element_init arg ;;
  num_elec <- atomic_number e ;;
  fill_shells Subshell_members num_elec [].

(** [ElectronicStructure.ground_state] *)
Definition ground_state (arg : element_arg) : result ElectronicStructure :=
  structure <- ground_state_structure arg ;;
  ES_init (map (fun kv => (KShell (fst kv), snd kv)) structure).

(** ** Vectors and matrices *)

Record vec3 : Type := mkVec3 { vx : Q; vy : Q; vz : Q }.

(** A 3x3 array, by rows. *)
Record mat3 : Type := mkMat3 { row1 : vec3; row2 : vec3; row3 : vec3 }.

Record vec4 : Type := mkVec4 { hx : Q; hy : Q; hz : Q; hw : Q }.

(** A 4x4 array, by rows. *)
Record mat4 : Type :=
  mkMat4 { hrow1 : vec4; hrow2 : vec4; hrow3 : vec4; hrow4 : vec4 }.

(** The matrices a transformation accepts: shape (3,3) or (4,4). *)
Inductive matrix : Type :=
| M3 (m : mat3)
| M4 (m : mat4).

(** Three basis vectors, as [lattice_vectors] or the rows of [np.eye(3)]. *)
Definition basis : Type := (vec3 * vec3 * vec3)%type.

(** [np.eye(3)] *)
Definition eye3 : mat3 :=
  mkMat3 (mkVec3 1 0 0) (mkVec3 0 1 0) (mkVec3 0 0 1).

Definition eye3_basis : basis :=
  (mkVec3 1 0 0, mkVec3 0 1 0, mkVec3 0 0 1).

(** Equality of vectors component by component, as rationals. *)
Definition vec3_equiv (u v : vec3) : Prop :=
  (vx u == vx v /\ vy u == vy v /\ vz u == vz v)%Q.

Definition vec3_eqb (u v : vec3) : bool :=
  (Qeq_bool (vx u) (vx v) && Qeq_bool (vy u) (vy v)
   && Qeq_bool (vz u) (vz v))%bool.

(** [u - v] on arrays of shape (3,). *)
Definition vec3_sub (u v : vec3) : vec3 :=
  mkVec3 (vx u - vx v)%Q (vy u - vy v)%Q (vz u - vz v)%Q.

(** [np.dot] of two vectors. *)
Definition dot3 (u v : vec3) : Q := (vx u * vx v + vy u * vy v + vz u * vz v)%Q.

Definition dot4 (u v : vec4) : Q :=
  (hx u * hx v + hy u * hy v + hz u * hz v + hw u * hw v)%Q.

(** [np.dot(m, v)] *)
Definition mat3_apply (m : mat3) (v : vec3) : vec3 :=
  mkVec3 (dot3 (row1 m) v) (dot3 (row2 m) v) (dot3 (row3 m) v).

Definition mat4_apply (m : mat4) (v : vec4) : vec4 :=
  mkVec4 (dot4 (hrow1 m) v) (dot4 (hrow2 m) v) (dot4 (hrow3 m) v)
         (dot4 (hrow4 m) v).

Definition col1 (m : mat3) : vec3 := mkVec3 (vx (row1 m)) (vx (row2 m)) (vx (row3 m)).
Definition col2 (m : mat3) : vec3 := mkVec3 (vy (row1 m)) (vy (row2 m)) (vy (row3 m)).
Definition col3 (m : mat3) : vec3 := mkVec3 (vz (row1 m)) (vz (row2 m)) (vz (row3 m)).

(** [np.dot(a, b)] of two 3x3 arrays. *)
Definition mat3_mul (a b : mat3) : mat3 :=
  let row r := mkVec3 (dot3 r (col1 b)) (dot3 r (col2 b)) (dot3 r (col3 b)) in
  mkMat3 (row (row1 a)) (row (row2 a)) (row (row3 a)).

(** The matrix whose columns are the three vectors of a basis. *)
Definition columns (b : basis) : mat3 :=
  let '(b1, b2, b3) := b in
  mkMat3 (mkVec3 (vx b1) (vx b2) (vx b3))
         (mkVec3 (vy b1) (vy b2) (vy b3))
         (mkVec3 (vz b1) (vz b2) (vz b3)).

Definition det3 (m : mat3) : Q :=
  let '(mkMat3 (mkVec3 a b c) (mkVec3 d e f) (mkVec3 g h i)) := m in
  (a * (e * i - f * h) - b * (d * i - f * g) + c * (d * h - e * g))%Q.

(** [np.linalg.inv], in exact arithmetic: the adjugate over the
    determinant; a singular matrix raises.  NumPy inverts in float64 by
    LU factorisation, which rounds and may find no zero pivot in a
    singular matrix, so only what does not depend on the accuracy of the
    inverse is stated about it below: it is used at the identity basis,
    where the float inverse is exact too. *)
Definition mat3_inv (m : mat3) : result mat3 :=
  let '(mkMat3 (mkVec3 a b c) (mkVec3 d e f) (mkVec3 g h i)) := m in
  let dt := det3 m in
  if Qeq_bool dt 0 then Raise LinAlgError
  else Ok (mkMat3
    (mkVec3 ((e * i - f * h) / dt) ((c * h - b * i) / dt) ((b * f - c * e) / dt))
    (mkVec3 ((f * g - d * i) / dt) ((a * i - c * g) / dt) ((c * d - a * f) / dt))
    (mkVec3 ((d * h - e * g) / dt) ((b * g - a * h) / dt) ((a * e - b * d) / dt)))%Q.

(** [np.linalg.norm] of an array of shape (3,), with an exact square
    root. *)
Definition norm (v : vec3) : R := sqrt (Q2R (dot3 v v)).

(** [abs(a - b) <= atol + rtol * abs(b)] with NumPy's default
    [rtol = 1e-5]: the test [np.isclose] makes on two finite numbers. *)
Definition isclose (a b atol : Q) : bool :=
  Qle_bool (Qabs (a - b)) (atol + 1e-5 * Qabs b)%Q.

(** [np.allclose(a, b, atol=atol)] on arrays of shape (3,). *)
Definition allclose (a b : vec3) (atol : Q) : bool :=
  (isclose (vx a) (vx b) atol && isclose (vy a) (vy b) atol
   && isclose (vz a) (vz b) atol)%bool.

(** Every component of [u] differs from that of [v] by less than [tol]. *)
Definition within (u v : vec3) (tol : Q) : Prop :=
  (Qabs (vx u - vx v) < tol /\ Qabs (vy u - vy v) < tol
   /\ Qabs (vz u - vz v) < tol)%Q.

(** [np.rint]: the nearest integer, a tie going to the even one. *)
Definition rint (x : Q) : Z :=
  let n := Qfloor x in
  let r := (x - inject_Z n)%Q in
  match (r ?= 1 # 2)%Q with
  | Lt => n
  | Gt => n + 1
  | Eq => if Z.even n then n else n + 1
  end.

(** [np.round(x, 3)]: NumPy scales by [10**3], rounds to the nearest
    integer and scales back. *)
Definition round3 (x : Q) : Q := (inject_Z (rint (x * 1000)) / 1000)%Q.

Definition vec3_round3 (v : vec3) : vec3 :=
  mkVec3 (round3 (vx v)) (round3 (vy v)) (round3 (vz v)).

(** ** Affine transforms ([affine]) *)

(** Modelled from the spec: [affine.change_of_basis] is defined outside
    [atom.py].  The spec: "returns the 3x3 matrix M such that
    transform(M, v) maps a vector expressed in basis_from coordinates
    into basis_to coordinates.  Computed via matrix inversion of the
    target basis composed with the source basis.  Fails with a numeric
    error if a basis is singular."  With the basis vectors as columns this
    is [inv(basis_to) . basis_from]. *)
Definition change_of_basis (basis_from basis_to : basis) : result mat3 :=
  standard_to_basis_to <- mat3_inv (columns basis_to) ;;
  Ok (mat3_mul standard_to_basis_to (columns basis_from)).

(** Modelled from the spec: [affine.transform] is defined outside
    [atom.py].  The spec: "Accepts either a 3x3 linear matrix (direct
    multiply) or a 4x4 homogeneous matrix (pad vector with a trailing 1,
    multiply, return the first three components)". *)
Definition transform (m : matrix) (v : vec3) : vec3 :=
  match m with
  | M3 m => mat3_apply m v
  | M4 m =>
      let r := mat4_apply m (mkVec4 (vx v) (vy v) (vz v) 1) in
      mkVec3 (hx r) (hy r) (hz r)
  end.

(** [real_coords] *)
Definition real_coords (frac_coords : vec3) (lattice_vectors : basis)
  : result vec3 :=
  COB <- change_of_basis lattice_vectors eye3_basis ;;
  Ok (transform (M3 COB) frac_coords).

(** [frac_coords] *)
Definition frac_coords (real_coords : vec3) (lattice_vectors : basis)
  : result vec3 :=
  COB <- change_of_basis eye3_basis lattice_vectors ;;
  Ok (transform (M3 COB) real_coords).

(** ** Lattice *)

(** Modelled from the spec: the [Lattice] collaborator is defined in
    [lattice.py], outside [atom.py].  The spec:
    it "must supply three lattice vectors and a value-equality
    comparison".  The vectors are the record; the comparison is a
    parameter of the development below.  A [Lattice] object is taken to
    be truthy, as an instance of a class without [__bool__] or [__len__]
    is. *)
Record Lattice : Type := mkLattice { lattice_vectors : basis }.

(** A value equality on lattices: the same three vectors, component by
    component.  It instantiates the comparison where a concrete one is
    needed. *)
Definition exact_Lattice_eq (l1 l2 : Lattice) : bool :=
  let '(a1, a2, a3) := lattice_vectors l1 in
  let '(b1, b2, b3) := lattice_vectors l2 in
  (vec3_eqb a1 b1 && vec3_eqb a2 b2 && vec3_eqb a3 b3)%bool.

(** ** Magnetic moments *)

(** A magnetic moment as the module holds it: a number, or the float
    NaN.  A table of ground-state moments may hold NaN where no moment
    is tabulated, and the constructor stores a NaN as it finds it. *)
Inductive moment : Type :=
| Moment (m : Q)
| NaN.

(** The truth value of a moment, as [magmom or ...] tests it: zero is
    false, any other number is true, and so is NaN. *)
Definition moment_truthy (m : moment) : bool :=
  match m with
  | Moment q => negb (Qeq_bool q 0)
  | NaN => true
  end.

(** [m1 == m2] on moments: NaN is equal to nothing, itself included. *)
Definition moment_eqb (m1 m2 : moment) : bool :=
  match m1, m2 with
  | Moment q1, Moment q2 => Qeq_bool q1 q2
  | _, _ => false
  end.

(** A table of ground-state magnetic moments that instantiates
    [ELEM_TO_MAGMOM] where a concrete one is needed: one unpaired spin
    for hydrogen, NaN for lawrencium, none for the other symbols. *)
Definition example_magmom (symbol : string) : option moment :=
  if String.eqb symbol "H" then Some (Moment 1)
  else if String.eqb symbol "Lr" then Some NaN
  else if valid_symbols symbol then Some (Moment 0)
  else None.

(** ** Atom *)

(** The class an atom was instantiated from: [Atom] or a subclass that
    inherits its constructor. *)
Inductive klass : Type :=
| class_Atom
| class_subclass (name : string).

(** An [Atom] object.  [as_Element] is the part [Element.__init__] sets
    up ([self.element]); [tag] is [None] or an integer. *)
Record Atom : Type := mkAtom {
  class_of : klass;
  as_Element : Element;
  coords_fractional : vec3;
  lattice : Lattice;
  displacement : vec3;
  magmom : moment;
  occupancy : Q;
  tag : option Z
}.

(** The tuple [Atom.__hash__] hands to [hash]. *)
Record hash_key : Type := mkKey {
  key_element : Z;
  key_magmom : moment;
  key_coords : vec3;
  key_lattice : Lattice;
  key_displacement : vec3
}.

Section Collaborators.

(** [atom_data.ELEM_TO_MAGMOM], a dictionary from symbols to
    ground-state magnetic moments. *)
Variable ELEM_TO_MAGMOM : string -> option moment.

(** [Lattice.__eq__] *)
Variable Lattice_eq : Lattice -> Lattice -> bool.

(** [Element.magnetic_moment_ground] *)
Definition magnetic_moment_ground (self : Element) : result moment :=
  match ELEM_TO_MAGMOM (element self) with
  | Some m => Ok m
  | None => Raise (KeyError_symbol (element self))
  end.

(** [Atom.__init__], called on a fresh instance of [cls].  An argument
    whose default is [None] is an [option]. *)
Definition Atom_init (cls : klass) (element : element_arg) (coords : vec3)
  (lattice : option Lattice) (displacement : option vec3)
  (magmom : option moment) (occupancy : Q) (tag : option Z) : result Atom :=
  super <- Element_init element ;;
  let coords_fractional := coords in
  let lattice :=
    match lattice with
    | Some l => l
    | None => mkLattice eye3_basis
    end in
  let displacement :=
    match displacement with
    | Some d => d
    | None => mkVec3 0 0 0
    end in
  magmom <- match magmom with
            | Some m => if moment_truthy m then Ok m
                        else magnetic_moment_ground super
            | None => magnetic_moment_ground super
            end ;;
  Ok (mkAtom cls super coords_fractional lattice displacement magmom
             occupancy tag).

(** [Atom.__eq__] between two atoms. *)
Definition Atom_eq (self other : Atom) : bool :=
  (Element_eq (as_Element self) (as_Element other)
   && moment_eqb (magmom self) (magmom other)
   && allclose (coords_fractional self) (coords_fractional other) 1e-3
   && Lattice_eq (lattice self) (lattice other)
   && allclose (displacement self) (displacement other) 1e-3)%bool.

(** The argument of [hash] in [Atom.__hash__]. *)
Definition Atom_hash_key (self : Atom) : result hash_key :=
  h <- Element_hash (as_Element self) ;;
  Ok (mkKey h (magmom self) (vec3_round3 (coords_fractional self))
            (lattice self) (vec3_round3 (displacement self))).

(** Equality of two such tuples, component by component. *)
Definition hash_key_eqb (k1 k2 : hash_key) : bool :=
  ((key_element k1 =? key_element k2)
   && moment_eqb (key_magmom k1) (key_magmom k2)
   && vec3_eqb (key_coords k1) (key_coords k2)
   && Lattice_eq (key_lattice k1) (key_lattice k2)
   && vec3_eqb (key_displacement k1) (key_displacement k2))%bool.

(** [Atom.coords_cartesian] *)
Definition coords_cartesian (self : Atom) : result vec3 :=
  real_coords (coords_fractional self) (lattice_vectors (lattice self)).

(** [Atom.transform].  The first component of the result is the
    receiver after the call, the second the atom returned. *)
Definition Atom_transform (self : Atom) (matrices : list matrix)
  : result (Atom * Atom) :=
  let coords_fractional :=
    fold_left (fun coords m => transform m coords) matrices
              (coords_fractional self) in
  new <- Atom_init (class_of self) (Sym (element (as_Element self)))
                   coords_fractional (Some (lattice self))
                   (Some (displacement self)) (Some (magmom self))
                   (occupancy self) None ;;
  Ok (self, new).

(** [distance_fractional] *)
Definition distance_fractional (atm1 atm2 : Atom) : result R :=
  if negb (Lattice_eq (lattice atm1) (lattice atm2))
  then Raise DistanceUndefined
  else Ok (norm (vec3_sub (coords_fractional atm1) (coords_fractional atm2))).

(** [distance_cartesian] *)
Definition distance_cartesian (atm1 atm2 : Atom) : result R :=
  if negb (Lattice_eq (lattice atm1) (lattice atm2))
  then Raise DistanceUndefined
  else
    c1 <- coords_cartesian atm1 ;;
    c2 <- coords_cartesian atm2 ;;
    Ok (norm (vec3_sub c1 c2)).

End Collaborators.

(** ** Sample values *)

(** [Atom("h", [0.5, 0.25, 2], tag=7)] with [example_magmom]: what the
    constructor returns. *)
Definition hydrogen_atom : Atom :=
  mkAtom class_Atom (mkElement "H") (mkVec3 0.5 0.25 2)
         (mkLattice eye3_basis) (mkVec3 0 0 0) (Moment 1) 1 (Some 7).

(** [Atom("He", [1, 0, 0])] with [example_magmom]. *)
Definition helium_atom : Atom :=
  mkAtom class_Atom (mkElement "He") (mkVec3 1 0 0)
         (mkLattice eye3_basis) (mkVec3 0 0 0) (Moment 0) 1 None.

(** [Atom("H", [0, 0, 0])] after [a.magmom = 0.0]. *)
Definition spinless_hydrogen : Atom :=
  mkAtom class_Atom (mkElement "H") (mkVec3 0 0 0)
         (mkLattice eye3_basis) (mkVec3 0 0 0) (Moment 0) 1 None.

(** [Atom("Lr", [0, 0, 0])] with [example_magmom]: the moment is the
    NaN of the table. *)
Definition lawrencium_atom : Atom :=
  mkAtom class_Atom (mkElement "Lr") (mkVec3 0 0 0)
         (mkLattice eye3_basis) (mkVec3 0 0 0) NaN 1 None.

(** Three lattice vectors that are linearly independent. *)
Definition triclinic_vectors : basis :=
  (mkVec3 1 2 3, mkVec3 4 5 6, mkVec3 7 8 10).

(** ** The remaining functions of the module *)

(** The argument of [is_element]: what [Element] accepts, or an
    [Element] instance, which is used as it is. *)
Inductive is_element_arg : Type :=
| FromArg (a : element_arg)
| FromElement (e : Element).

(** [is_element]: the closure [_is_element] it returns compares atomic
    numbers. *)
Definition is_element (arg : is_element_arg) : result (Atom -> result bool) :=
  e <- match arg with
       | FromElement e => Ok e
       | FromArg a => Element_init a
       end ;;
  Ok (fun atm =>
        n_atm <- atomic_number (as_Element atm) ;;
        n_elem <- atomic_number e ;;
        Ok (n_atm =? n_elem)).

(** [Atom.__array__]: the array [[Z, x, y, z]]. *)
Definition Atom_array (self : Atom) : result vec4 :=
  n <- atomic_number (as_Element self) ;;
  Ok (mkVec4 (inject_Z n) (vx (coords_fractional self))
             (vy (coords_fractional self)) (vz (coords_fractional self))).

(** What [Atom.from_ase] reads of an [ase.Atom]: its symbol, position
    and magnetic moment, and the cell of the [ase.Atoms] it belongs to,
    if it belongs to one. *)
Record ase_Atom : Type := mkAseAtom {
  ase_symbol : string;
  ase_position : vec3;
  ase_magmom : moment;
  ase_cell : option basis
}.

(** [Atom.from_ase] *)
Definition Atom_from_ase (ELEM_TO_MAGMOM : string -> option moment)
  (cls : klass)
  (atom : ase_Atom) : result Atom :=
  let lattice :=
    match ase_cell atom with
    | Some cell => cell
    | None => eye3_basis
    end in
  coords <- frac_coords (ase_position atom) lattice ;;
  Atom_init ELEM_TO_MAGMOM cls (Sym (ase_symbol atom)) coords None None
            (Some (ase_magmom atom)) 1 None.

(** ** Vocabulary of the statements *)

(** The capacity of a member of [Subshell]. *)
Definition capacity (shell : Subshell) : Z :=
  match maximum_electrons (KShell shell) with
  | Ok c => c
  | Raise _ => 0
  end.

Definition total_capacity (members : list Subshell) : Z :=
  fold_right (fun shell acc => capacity shell + acc) 0 members.

(** The number of electrons a dictionary distributes. *)
Definition total_electrons (d : shell_dict) : Z :=
  fold_right (fun kv acc => snd kv + acc) 0 d.

(** * Properties *)

(** ** Strings *)

Lemma to_upper_idempotent (c : ascii) : to_upper (to_upper c) = to_upper c.
Proof. destruct c as [[] [] [] [] [] [] [] []]; reflexivity. Qed.

Lemma to_lower_idempotent (c : ascii) : to_lower (to_lower c) = to_lower c.
Proof. destruct c as [[] [] [] [] [] [] [] []]; reflexivity. Qed.

Lemma is_cased_to_upper (c : ascii) : is_cased (to_upper c) = is_cased c.
Proof. destruct c as [[] [] [] [] [] [] [] []]; reflexivity. Qed.

Lemma is_cased_to_lower (c : ascii) : is_cased (to_lower c) = is_cased c.
Proof. destruct c as [[] [] [] [] [] [] [] []]; reflexivity. Qed.

Lemma title_from_idempotent (s : string) :
  forall b, title_from b (title_from b s) = title_from b s.
Proof.
  induction s as [|c rest IH]; intros b; [reflexivity|].
  cbn [title_from]. destruct b.
  - rewrite to_lower_idempotent, is_cased_to_lower, IH. reflexivity.
  - rewrite to_upper_idempotent, is_cased_to_upper, IH. reflexivity.
Qed.

(** Normalising the case of a symbol twice is normalising it once. *)
Lemma title_idempotent (s : string) : title (title s) = title s.
Proof. apply title_from_idempotent. Qed.

(** ** Subshell *)

Lemma Subshell_eqb_eq (a b : Subshell) : Subshell_eqb a b = true <-> a = b.
Proof.
  split.
  - destruct a, b; intros H; try reflexivity; discriminate H.
  - intros ->. destruct b; reflexivity.
Qed.

Lemma Subshell_call_value (shell : Subshell) :
  Subshell_call (KLabel (value shell)) = Ok shell.
Proof. destruct shell; reflexivity. Qed.

(** The capacity of a subshell is the entry of [maxima] for the last
    letter of its label: s = 2, p = 6, d = 10, f = 14. *)
Lemma maximum_electrons_by_letter (shell : Subshell) :
  exists c cap,
    last_char (value shell) = Some c /\ maxima c = Some cap /\
    maximum_electrons (KShell shell) = Ok cap /\
    ((c = "s"%char /\ cap = 2) \/ (c = "p"%char /\ cap = 6) \/
     (c = "d"%char /\ cap = 10) \/ (c = "f"%char /\ cap = 14)).
Proof.
  destruct shell; cbn;
    (do 2 eexists; repeat split; [reflexivity ..|]; tauto).
Qed.

(** ** ElectronicStructure *)

(** A call of [__setitem__] that returns leaves the mapping as it was. *)
Lemma ES_setitem_keeps_state (self self' : ElectronicStructure)
  (key : shell_key) (v : Z) :
  ES_setitem self key v = Ok self' -> self' = self.
Proof.
  unfold ES_setitem.
  destruct (Subshell_call key) as [shell|e]; cbn [bind]; [|discriminate].
  destruct (maximum_electrons (KShell shell)) as [cap|e]; cbn [bind];
    [|discriminate].
  destruct (v >? cap); [discriminate|]. intros H. injection H as <-. reflexivity.
Qed.

Lemma insert_in_order_keeps_state (members : list Subshell)
  (shells : shell_dict) (self self' : ElectronicStructure) :
  insert_in_order members shells self = Ok self' -> self' = self.
Proof.
  revert self.
  induction members as [|shell rest IH]; intros self; cbn [insert_in_order].
  - intros H. injection H as <-. reflexivity.
  - destruct (dict_contains shells shell); cbn [negb]; [|apply IH].
    destruct (dict_get shells shell) as [v|]; [|discriminate].
    destruct (ES_setitem self (KShell shell) v) as [s1|e] eqn:Hset;
      cbn [bind]; [|discriminate].
    apply ES_setitem_keeps_state in Hset. subst s1. apply IH.
Qed.

(** Whatever mapping the constructor is given, the structure it builds
    holds no entry. *)
Lemma ES_init_empty (shells : list (shell_key * Z))
  (self : ElectronicStructure) :
  ES_init shells = Ok self -> self = mkES [].
Proof.
  unfold ES_init. destruct (normalize_keys shells []) as [d|e]; cbn [bind];
    [|discriminate].
  apply insert_in_order_keeps_state.
Qed.

(** The rendering of the neon configuration, had it been stored. *)
Lemma ES_str_neon :
  ES_str (mkES [(one_s, 2); (two_s, 2); (two_p, 6)]) = "1s²2s²2p⁶".
Proof. reflexivity. Qed.

(** C1.  Setting the occupancy of a subshell to a value within its
    capacity does not make the value retrievable: the constructor given
    [{"1s": 2}] builds an empty structure, and after [es["1s"] = 2] on an
    empty structure the lookup of [1s] raises [KeyError]. *)
Theorem ES_setitem_does_not_store :
  ES_init [(KLabel "1s", 2)] = Ok (mkES []) /\
  (es <- ES_init [(KLabel "1s", 2)] ;; ES_getitem es (KShell one_s))
    = Raise (KeyError_shell (KShell one_s)) /\
  (es <- ES_setitem (mkES []) (KLabel "1s") 2 ;; ES_getitem es (KShell one_s))
    = Raise (KeyError_shell (KShell one_s)).
Proof. repeat split; reflexivity. Qed.

(** C2.  [ground_state(10)] fills the dictionary 1s2 2s2 2p6, yet the
    structure built from it is empty and renders as the empty string,
    not as the neon configuration. *)
Theorem ground_state_neon_renders_empty :
  ground_state_structure (Num 10)
    = Ok [(one_s, 2); (two_s, 2); (two_p, 6)] /\
  ground_state (Num 10) = Ok (mkES []) /\
  (es <- ground_state (Num 10) ;; Ok (ES_str es)) = Ok "" /\
  "" <> "1s²2s²2p⁶".
Proof. repeat split; try reflexivity. discriminate. Qed.

(** C3, as stated, fails: a negative value is accepted. *)
Lemma ES_setitem_accepts_negative :
  -1 < 0 /\ ES_setitem (mkES []) (KLabel "1s") (-1) = Ok (mkES []).
Proof. split; reflexivity. Qed.

(** C3, amended.  Setting the occupancy of a subshell, given as a member
    or by its label, raises the invalid-population error exactly when the
    value exceeds the capacity of the subshell, and returns otherwise;
    three electrons in 1s are refused. *)
Theorem ES_setitem_raises_iff_above_capacity
  (self : ElectronicStructure) (shell : Subshell) (v : Z) :
  exists cap,
    maximum_electrons (KShell shell) = Ok cap /\
    (ES_setitem self (KShell shell) v = Raise (InvalidPopulation v shell)
       <-> v > cap) /\
    (ES_setitem self (KShell shell) v = Ok self <-> v <= cap) /\
    ES_setitem self (KLabel (value shell)) v
      = ES_setitem self (KShell shell) v /\
    ES_setitem self (KLabel "1s") 3 = Raise (InvalidPopulation 3 one_s).
Proof.
  destruct (maximum_electrons_by_letter shell) as (c & cap & _ & _ & Hmax & _).
  exists cap. split; [exact Hmax|].
  assert (Hset : ES_setitem self (KShell shell) v
                 = if v >? cap then Raise (InvalidPopulation v shell)
                   else Ok self).
  { unfold ES_setitem. cbn [Subshell_call bind]. rewrite Hmax. reflexivity. }
  repeat split.
  - rewrite Hset. destruct (v >? cap) eqn:E; [lia|discriminate].
  - rewrite Hset. intros H. apply Z.gtb_gt in H. rewrite H. reflexivity.
  - rewrite Hset. destruct (v >? cap) eqn:E; [discriminate|].
    intros _. rewrite Z.gtb_ltb in E. apply Z.ltb_ge in E. exact E.
  - rewrite Hset. intros H. destruct (v >? cap) eqn:E; [|reflexivity].
    apply Z.gtb_gt in E. lia.
  - unfold ES_setitem at 1. rewrite Subshell_call_value. reflexivity.
Qed.

(** ** Element *)


(** ** Numbers, vectors and matrices *)

Lemma rtol_term_nonneg (b : Q) : (0 <= 1e-5 * Qabs b)%Q.
Proof. apply Qmult_le_0_compat; [discriminate|apply Qabs_nonneg]. Qed.

(** Two numbers less than [atol] apart are close. *)
Lemma isclose_within (a b atol : Q) :
  (Qabs (a - b) < atol)%Q -> isclose a b atol = true.
Proof.
  intros H. unfold isclose. apply Qle_bool_iff.
  pose proof (rtol_term_nonneg b). lra.
Qed.

Lemma isclose_equiv (a b atol : Q) :
  (a == b)%Q -> (0 <= atol)%Q -> isclose a b atol = true.
Proof.
  intros E Hatol. unfold isclose. apply Qle_bool_iff.
  assert (Qabs (a - b) == 0)%Q as ->.
  { assert (a - b == 0)%Q as -> by lra. reflexivity. }
  pose proof (rtol_term_nonneg b). lra.
Qed.

Lemma allclose_equiv (u v : vec3) :
  vec3_equiv u v -> allclose u v 1e-3 = true.
Proof.
  intros (Hx & Hy & Hz). unfold allclose.
  rewrite !isclose_equiv by (assumption || discriminate). reflexivity.
Qed.

Lemma vec3_equiv_refl (v : vec3) : vec3_equiv v v.
Proof. repeat split; reflexivity. Qed.

(** The norm of a difference does not depend on the order of its terms. *)
Lemma norm_sub_symmetric (u v : vec3) :
  norm (vec3_sub u v) = norm (vec3_sub v u).
Proof.
  unfold norm. f_equal. apply Qeq_eqR.
  unfold dot3, vec3_sub. cbn [vx vy vz]. ring.
Qed.

(** ** Affine transforms *)

Lemma transform_eye3 (v : vec3) : vec3_equiv (transform (M3 eye3) v) v.
Proof.
  unfold vec3_equiv, transform, mat3_apply, dot3, eye3.
  cbn [vx vy vz row1 row2 row3]. repeat split; ring.
Qed.

Lemma mat3_inv_eye3 : exists m, mat3_inv (columns eye3_basis) = Ok m.
Proof. eexists. reflexivity. Qed.

(** The identity basis is never singular, so [real_coords] returns. *)
Lemma real_coords_returns (c : vec3) (lattice_vectors : basis) :
  exists r, real_coords c lattice_vectors = Ok r.
Proof.
  unfold real_coords, change_of_basis.
  destruct mat3_inv_eye3 as [m ->]. cbn [bind]. eexists. reflexivity.
Qed.

(** ** Element, again *)

(** The symbol an element holds builds the same element. *)
Lemma Element_init_canonical (arg : element_arg) (e : Element) :
  Element_init arg = Ok e -> Element_init (Sym (element e)) = Ok e.
Proof.
  unfold Element_init.
  destruct (match arg with
            | Sym s => Ok s
            | Num n => match NUM_TO_ELEM n with
                       | Some s => Ok s
                       | None => Raise (KeyError_number n)
                       end
            end) as [s|err]; cbn [bind]; [|discriminate].
  destruct (valid_symbols (title s)) eqn:Hvalid; cbn [negb]; [|discriminate].
  intros H. injection H as <-. cbn [element].
  rewrite title_idempotent, Hvalid. reflexivity.
Qed.

(** ** Atom *)

(** A moment that is a number is equal to itself. *)
Lemma moment_eqb_refl (m : moment) : m <> NaN -> moment_eqb m m = true.
Proof.
  destruct m as [q|]; [|congruence].
  intros _. apply Qeq_bool_iff. reflexivity.
Qed.

Section AtomProperties.

Variable ELEM_TO_MAGMOM : string -> option moment.
Variable Lattice_eq : Lattice -> Lattice -> bool.

(** What a returning call of the constructor has stored. *)
Lemma Atom_init_fields cls arg coords lat disp mm occ tg a :
  Atom_init ELEM_TO_MAGMOM cls arg coords lat disp mm occ tg = Ok a ->
  Element_init arg = Ok (as_Element a) /\
  class_of a = cls /\ coords_fractional a = coords /\
  lattice a = match lat with Some l => l | None => mkLattice eye3_basis end /\
  displacement a = match disp with Some d => d | None => mkVec3 0 0 0 end /\
  occupancy a = occ /\ tag a = tg /\
  ((exists m, mm = Some m /\ moment_truthy m = true /\ magmom a = m) \/
   ((mm = None \/ exists m, mm = Some m /\ moment_truthy m = false) /\
    magnetic_moment_ground ELEM_TO_MAGMOM (as_Element a) = Ok (magmom a))).
Proof.
  unfold Atom_init.
  destruct (Element_init arg) as [e|err]; cbn [bind]; [|discriminate].
  destruct mm as [m|].
  - destruct (moment_truthy m) eqn:Hm.
    + cbn [bind]. intros H. injection H as <-. cbn. repeat split.
      left. exists m. auto.
    + destruct (magnetic_moment_ground ELEM_TO_MAGMOM e) as [g|err] eqn:Hg;
        cbn [bind]; [|discriminate].
      intros H. injection H as <-. cbn. repeat split.
      right. split; [right; exists m; auto|exact Hg].
  - destruct (magnetic_moment_ground ELEM_TO_MAGMOM e) as [g|err] eqn:Hg;
      cbn [bind]; [|discriminate].
    intros H. injection H as <-. cbn. repeat split.
    right. split; [left; reflexivity|exact Hg].
Qed.

(** A constructed atom holds a canonical symbol, and a moment that is
    zero only if it is the ground-state moment of its element. *)
Lemma Atom_init_invariant cls arg coords lat disp mm occ tg a :
  Atom_init ELEM_TO_MAGMOM cls arg coords lat disp mm occ tg = Ok a ->
  Element_init (Sym (element (as_Element a))) = Ok (as_Element a) /\
  (moment_truthy (magmom a) = false ->
   magnetic_moment_ground ELEM_TO_MAGMOM (as_Element a) = Ok (magmom a)).
Proof.
  intros H. apply Atom_init_fields in H.
  destruct H as (He & _ & _ & _ & _ & _ & _ & Hm).
  split; [eapply Element_init_canonical; exact He|].
  intros Hz. destruct Hm as [(m & _ & Hnz & Hm)|[_ Hg]].
  - rewrite Hm in Hz. congruence.
  - exact Hg.
Qed.

(** Constructing again from the fields of such an atom. *)
Lemma Atom_init_from_fields (a : Atom) cls coords occ tg :
  Element_init (Sym (element (as_Element a))) = Ok (as_Element a) ->
  (moment_truthy (magmom a) = false ->
   magnetic_moment_ground ELEM_TO_MAGMOM (as_Element a) = Ok (magmom a)) ->
  Atom_init ELEM_TO_MAGMOM cls (Sym (element (as_Element a))) coords
            (Some (lattice a)) (Some (displacement a)) (Some (magmom a))
            occ tg
  = Ok (mkAtom cls (as_Element a) coords (lattice a) (displacement a)
               (magmom a) occ tg).
Proof.
  intros He Hm. unfold Atom_init. rewrite He. cbn [bind].
  destruct (moment_truthy (magmom a)).
  - reflexivity.
  - rewrite Hm by reflexivity. reflexivity.
Qed.


(** C8, amended.  For an atom built by the constructor whose magnetic
    moment is a number, on a lattice that compares equal to itself,
    transforming by the 3x3 identity matrix returns an atom that compares
    equal to the receiver. *)
Theorem Atom_transform_identity cls arg coords lat disp mm occ tg a :
  Atom_init ELEM_TO_MAGMOM cls arg coords lat disp mm occ tg = Ok a ->
  magmom a <> NaN ->
  Lattice_eq (lattice a) (lattice a) = true ->
  exists new,
    Atom_transform ELEM_TO_MAGMOM a [M3 eye3] = Ok (a, new) /\
    Atom_eq Lattice_eq new a = true.
Proof.
  intros H Hnan Hl. apply Atom_init_invariant in H. destruct H as [He Hm].
  unfold Atom_transform. rewrite (Atom_init_from_fields a _ _ _ _ He Hm).
  cbn [bind]. eexists. split; [reflexivity|].
  unfold Atom_eq, Element_eq.
  cbn [as_Element magmom coords_fractional lattice displacement fold_left].
  rewrite String.eqb_refl, Hl.
  rewrite (moment_eqb_refl _ Hnan).
  rewrite (allclose_equiv _ _ (transform_eye3 _)).
  rewrite (allclose_equiv _ _ (vec3_equiv_refl _)).
  reflexivity.
Qed.

(** C10.  When the element is valid and has a ground-state moment [g],
    the constructor called with an explicit moment equal to zero stores
    [g]; and [transform], on any atom of that element whose stored moment
    is that zero, returns an atom whose moment is [g]. *)
Theorem falsy_magmom_is_replaced cls arg coords lat disp m occ tg e g :
  Element_init arg = Ok e ->
  ELEM_TO_MAGMOM (element e) = Some g ->
  Qeq_bool m 0 = true ->
  (exists a,
     Atom_init ELEM_TO_MAGMOM cls arg coords lat disp (Some (Moment m)) occ tg
     = Ok a /\
     as_Element a = e /\ magmom a = g) /\
  (forall b matrices,
     as_Element b = e -> magmom b = Moment m ->
     exists new,
       Atom_transform ELEM_TO_MAGMOM b matrices = Ok (b, new) /\
       as_Element new = e /\ magmom new = g).
Proof.
  intros He Hg Hm. split.
  - unfold Atom_init. rewrite He. cbn [bind moment_truthy]. rewrite Hm.
    unfold magnetic_moment_ground. rewrite Hg. cbn [bind negb].
    eexists. split; [reflexivity|]. split; reflexivity.
  - intros b matrices Hb Hbm. unfold Atom_transform, Atom_init.
    rewrite Hb, (Element_init_canonical _ _ He). cbn [bind].
    rewrite Hbm. cbn [moment_truthy]. rewrite Hm.
    unfold magnetic_moment_ground. rewrite Hg. cbn [bind negb].
    eexists. split; [reflexivity|]. split; reflexivity.
Qed.

Lemma coords_cartesian_returns (a : Atom) :
  exists c, coords_cartesian a = Ok c.
Proof. apply real_coords_returns. Qed.

(** C5.  Each of the two distance functions raises the
    distance-undefined error exactly when the two lattices compare
    unequal and returns a distance exactly when they compare equal; when
    the lattices compare equal in both orders, the distance from the
    first atom to the second is the distance from the second to the
    first. *)
Theorem distance_contract (atm1 atm2 : Atom) :
  (distance_fractional Lattice_eq atm1 atm2 = Raise DistanceUndefined
     <-> Lattice_eq (lattice atm1) (lattice atm2) = false) /\
  (distance_cartesian Lattice_eq atm1 atm2 = Raise DistanceUndefined
     <-> Lattice_eq (lattice atm1) (lattice atm2) = false) /\
  ((exists d, distance_fractional Lattice_eq atm1 atm2 = Ok d)
     <-> Lattice_eq (lattice atm1) (lattice atm2) = true) /\
  ((exists d, distance_cartesian Lattice_eq atm1 atm2 = Ok d)
     <-> Lattice_eq (lattice atm1) (lattice atm2) = true) /\
  (Lattice_eq (lattice atm1) (lattice atm2) = true ->
   Lattice_eq (lattice atm2) (lattice atm1) = true ->
   distance_fractional Lattice_eq atm1 atm2
     = distance_fractional Lattice_eq atm2 atm1 /\
   distance_cartesian Lattice_eq atm1 atm2
     = distance_cartesian Lattice_eq atm2 atm1).
Proof.
  unfold distance_fractional, distance_cartesian.
  destruct (coords_cartesian_returns atm1) as [c1 ->].
  destruct (coords_cartesian_returns atm2) as [c2 ->].
  cbn [bind].
  destruct (Lattice_eq (lattice atm1) (lattice atm2)); cbn [negb].
  - split; [split; discriminate|]. split; [split; discriminate|].
    split; [split; [reflexivity|intros _; eexists; reflexivity]|].
    split; [split; [reflexivity|intros _; eexists; reflexivity]|].
    intros _ Hsym. rewrite Hsym. cbn [negb].
    rewrite (norm_sub_symmetric c1 c2).
    rewrite (norm_sub_symmetric (coords_fractional atm1)).
    split; reflexivity.
  - split; [split; reflexivity|]. split; [split; reflexivity|].
    split; [split; [intros [d Hd]; discriminate Hd|discriminate]|].
    split; [split; [intros [d Hd]; discriminate Hd|discriminate]|].
    discriminate.
Qed.

(** The first half of C4: atoms of the same element and moment, on
    lattices that compare equal, whose coordinates and displacements
    differ by less than 1e-3 in every component, compare equal. *)
Lemma Atom_eq_within_tolerance (a b : Atom) :
  Element_eq (as_Element a) (as_Element b) = true ->
  moment_eqb (magmom a) (magmom b) = true ->
  Lattice_eq (lattice a) (lattice b) = true ->
  within (coords_fractional a) (coords_fractional b) 1e-3 ->
  within (displacement a) (displacement b) 1e-3 ->
  Atom_eq Lattice_eq a b = true.
Proof.
  intros He Hm Hl (Hx & Hy & Hz) (Dx & Dy & Dz).
  unfold Atom_eq, allclose. rewrite He, Hm, Hl.
  rewrite !isclose_within by assumption. reflexivity.
Qed.

End AtomProperties.

(** C4.  Two hydrogen atoms at fractional [x = 0.0004] and [x = 0.0006]
    compare equal, while the tuples their hashes are computed from differ:
    the first coordinate rounds to 0 in one and to 0.001 in the other. *)
Theorem Atom_eq_without_equal_hash :
  exists a1 a2 k1 k2,
    Atom_init example_magmom class_Atom (Sym "H") (mkVec3 0.0004 0 0)
              None None None 1 None = Ok a1 /\
    Atom_init example_magmom class_Atom (Sym "H") (mkVec3 0.0006 0 0)
              None None None 1 None = Ok a2 /\
    Atom_eq exact_Lattice_eq a1 a2 = true /\
    Atom_hash_key a1 = Ok k1 /\
    Atom_hash_key a2 = Ok k2 /\
    vec3_eqb (key_coords k1) (mkVec3 0 0 0) = true /\
    vec3_eqb (key_coords k2) (mkVec3 0.001 0 0) = true /\
    hash_key_eqb exact_Lattice_eq k1 k2 = false.
Proof. do 4 eexists. repeat split; vm_compute; reflexivity. Qed.


(** C8, as stated, fails: the atom [Atom("Lr", [0, 0, 0])], whose moment
    is the NaN of the table, and a hydrogen atom whose moment was set to
    zero are not equal to what the identity transform returns for
    them. *)
Lemma Atom_transform_identity_not_equal :
  Atom_init example_magmom class_Atom (Sym "Lr") (mkVec3 0 0 0)
            None None None 1 None = Ok lawrencium_atom /\
  (exists new,
     Atom_transform example_magmom lawrencium_atom [M3 eye3]
       = Ok (lawrencium_atom, new) /\
     Atom_eq exact_Lattice_eq new lawrencium_atom = false) /\
  (exists new,
     Atom_transform example_magmom spinless_hydrogen [M3 eye3]
       = Ok (spinless_hydrogen, new) /\
     Atom_eq exact_Lattice_eq new spinless_hydrogen = false).
Proof.
  split; [reflexivity|].
  split; eexists; (split; [reflexivity|vm_compute; reflexivity]).
Qed.

(** ** The theorems at concrete atoms *)


Lemma Atom_transform_identity_witness :
  Atom_init example_magmom class_Atom (Sym "h") (mkVec3 0.5 0.25 2)
            None None None 1 (Some 7) = Ok hydrogen_atom /\
  magmom hydrogen_atom <> NaN /\
  exact_Lattice_eq (lattice hydrogen_atom) (lattice hydrogen_atom) = true /\
  exists new,
    Atom_transform example_magmom hydrogen_atom [M3 eye3]
      = Ok (hydrogen_atom, new) /\
    Atom_eq exact_Lattice_eq new hydrogen_atom = true.
Proof.
  split; [reflexivity|]. split; [discriminate|]. split; [reflexivity|].
  apply (Atom_transform_identity example_magmom exact_Lattice_eq class_Atom
           (Sym "h") (mkVec3 0.5 0.25 2) None None None 1 (Some 7));
    [reflexivity|discriminate|reflexivity].
Defined.

Lemma falsy_magmom_is_replaced_witness :
  Element_init (Num 1) = Ok (mkElement "H") /\
  example_magmom "H" = Some (Moment 1) /\
  Qeq_bool 0 0 = true /\
  (exists a,
     Atom_init example_magmom class_Atom (Num 1) (mkVec3 0 0 0) None None
               (Some (Moment 0)) 1 None = Ok a /\
     as_Element a = mkElement "H" /\ magmom a = Moment 1) /\
  (forall b matrices,
     as_Element b = mkElement "H" -> magmom b = Moment 0 ->
     exists new,
       Atom_transform example_magmom b matrices = Ok (b, new) /\
       as_Element new = mkElement "H" /\ magmom new = Moment 1).
Proof.
  split; [reflexivity|]. split; [reflexivity|]. split; [reflexivity|].
  apply (falsy_magmom_is_replaced example_magmom class_Atom (Num 1)
           (mkVec3 0 0 0) None None 0%Q 1 None (mkElement "H") (Moment 1));
    reflexivity.
Defined.

Lemma distance_contract_witness :
  exact_Lattice_eq (lattice hydrogen_atom) (lattice helium_atom) = true /\
  exact_Lattice_eq (lattice helium_atom) (lattice hydrogen_atom) = true /\
  distance_fractional exact_Lattice_eq hydrogen_atom helium_atom
    = distance_fractional exact_Lattice_eq helium_atom hydrogen_atom /\
  distance_cartesian exact_Lattice_eq hydrogen_atom helium_atom
    = distance_cartesian exact_Lattice_eq helium_atom hydrogen_atom.
Proof.
  split; [reflexivity|]. split; [reflexivity|].
  apply (distance_contract exact_Lattice_eq hydrogen_atom helium_atom);
    reflexivity.
Defined.

(** * Further properties *)

(** ** Subshell labels and capacities *)

Lemma find_member_value (label : string) (members : list Subshell)
  (shell : Subshell) :
  find_member label members = Some shell -> value shell = label.
Proof.
  induction members as [|m rest IH]; cbn [find_member]; [discriminate|].
  destruct (String.eqb (value m) label) eqn:E.
  - intros H. injection H as <-. apply String.eqb_eq. exact E.
  - exact IH.
Qed.

Lemma Subshell_call_returns (label : string) (shell : Subshell) :
  Subshell_call (KLabel label) = Ok shell <-> value shell = label.
Proof.
  split.
  - unfold Subshell_call.
    destruct (find_member label Subshell_members) as [m|] eqn:E;
      [|discriminate].
    intros H. injection H as <-. eapply find_member_value. exact E.
  - intros <-. apply Subshell_call_value.
Qed.

Lemma Subshell_call_raises (label : string) :
  Subshell_call (KLabel label) = Raise (InvalidSubshell label)
  <-> forall member, value member <> label.
Proof.
  split.
  - intros H member Hv. apply Subshell_call_returns in Hv.
    rewrite H in Hv. discriminate Hv.
  - intros H. unfold Subshell_call.
    destruct (find_member label Subshell_members) as [m|] eqn:E;
      [|reflexivity].
    apply find_member_value in E. elim (H m E).
Qed.

(** X1.  [Subshell(label)] returns the member whose value is the label,
    and raises exactly when no member has that value;
    [maximum_electrons] on a label raises in exactly the same case. *)
Theorem Subshell_call_label (label : string) (shell : Subshell) :
  (Subshell_call (KLabel label) = Ok shell <-> value shell = label) /\
  (Subshell_call (KLabel label) = Raise (InvalidSubshell label)
     <-> forall member, value member <> label) /\
  (maximum_electrons (KLabel label) = Raise (InvalidSubshell label)
     <-> forall member, value member <> label).
Proof.
  split; [apply Subshell_call_returns|].
  split; [apply Subshell_call_raises|].
  rewrite <- Subshell_call_raises. unfold maximum_electrons.
  destruct (Subshell_call (KLabel label)) as [s|e]; cbn [bind].
  - split; [|discriminate].
    destruct (maximum_electrons_by_letter s) as (c & cap & Hc & Hm & _).
    rewrite Hc, Hm. discriminate.
  - split; intros H; injection H as ->; reflexivity.
Qed.

Lemma maximum_electrons_capacity (shell : Subshell) :
  maximum_electrons (KShell shell) = Ok (capacity shell) /\
  2 <= capacity shell <= 14.
Proof. destruct shell; cbn; split; (reflexivity || lia). Qed.

Lemma Subshell_eqb_refl (s : Subshell) : Subshell_eqb s s = true.
Proof. apply Subshell_eqb_eq. reflexivity. Qed.

Lemma Subshell_eqb_neq (a b : Subshell) : a <> b -> Subshell_eqb a b = false.
Proof.
  intros H. destruct (Subshell_eqb a b) eqn:E; [|reflexivity].
  apply Subshell_eqb_eq in E. contradiction.
Qed.

(** ** Plain dictionaries *)

Lemma dict_contains_get (d : shell_dict) (s : Subshell) :
  dict_contains d s = true <-> exists v, dict_get d s = Some v.
Proof.
  induction d as [|[k w] rest IH]; cbn [dict_contains dict_get].
  - split; [discriminate|intros [v H]; discriminate H].
  - destruct (Subshell_eqb k s); cbn [orb].
    + split; [intros _; exists w; reflexivity|reflexivity].
    + exact IH.
Qed.

Lemma dict_get_set (d : shell_dict) (s s' : Subshell) (v : Z) :
  dict_get (dict_set d s v) s' = if Subshell_eqb s s' then Some v
                                 else dict_get d s'.
Proof.
  induction d as [|[k w] rest IH]; cbn [dict_set dict_get].
  - reflexivity.
  - destruct (Subshell_eqb k s) eqn:Eks; cbn [dict_get].
    + apply Subshell_eqb_eq in Eks. subst k.
      destruct (Subshell_eqb s s'); reflexivity.
    + destruct (Subshell_eqb k s') eqn:Eks'.
      * apply Subshell_eqb_eq in Eks'. subst k.
        rewrite Subshell_eqb_neq; [reflexivity|].
        intros ->. rewrite Subshell_eqb_refl in Eks. discriminate.
      * exact IH.
Qed.

Lemma dict_set_fresh (d : shell_dict) (s : Subshell) (v : Z) :
  dict_contains d s = false -> dict_set d s v = (d ++ [(s, v)])%list.
Proof.
  induction d as [|[k w] rest IH]; cbn [dict_contains dict_set app].
  - reflexivity.
  - destruct (Subshell_eqb k s); cbn [orb]; [discriminate|].
    intros H. rewrite (IH H). reflexivity.
Qed.

Lemma dict_contains_app (d1 d2 : shell_dict) (s : Subshell) :
  dict_contains (d1 ++ d2)%list s = (dict_contains d1 s || dict_contains d2 s)%bool.
Proof.
  induction d1 as [|[k w] rest IH]; cbn [dict_contains app orb].
  - reflexivity.
  - rewrite IH. apply orb_assoc.
Qed.

(** ** The loop of [ground_state] *)

Lemma total_electrons_app (d1 d2 : shell_dict) :
  total_electrons (d1 ++ d2)%list = total_electrons d1 + total_electrons d2.
Proof.
  induction d1 as [|kv rest IH]; cbn [total_electrons fold_right app].
  - reflexivity.
  - fold (total_electrons (rest ++ d2)%list). fold (total_electrons rest).
    rewrite IH. lia.
Qed.

Lemma total_capacity_nonneg (members : list Subshell) :
  0 <= total_capacity members.
Proof.
  induction members as [|s rest IH]; cbn [total_capacity fold_right]; [lia|].
  fold (total_capacity rest).
  pose proof (maximum_electrons_capacity s) as [_ Hc]. lia.
Qed.

Lemma fill_shells_appends (members : list Subshell) :
  forall (n : Z) (acc : shell_dict),
    0 < n ->
    NoDup members ->
    (forall s, In s members -> dict_contains acc s = false) ->
    exists d,
      fill_shells members n acc = Ok (acc ++ d)%list /\
      total_electrons d = Z.min n (total_capacity members) /\
      map fst d = firstn (length d) members /\
      Forall (fun kv => 1 <= snd kv <= capacity (fst kv)) d /\
      Forall (fun kv => snd kv = capacity (fst kv)) (removelast d).
Proof.
  induction members as [|s rest IH]; intros n acc Hn Hnodup Hfresh.
  - exists []. cbn. rewrite app_nil_r. repeat split; try constructor. lia.
  - cbn [fill_shells].
    destruct (maximum_electrons_capacity s) as [Hmax Hcap].
    rewrite Hmax. cbn [bind].
    rewrite dict_set_fresh by (apply Hfresh; left; reflexivity).
    pose proof (total_capacity_nonneg rest) as Hrest.
    cbn [total_capacity fold_right]. fold (total_capacity rest).
    destruct (n - Z.min (capacity s) n =? 0) eqn:Hzero.
    + apply Z.eqb_eq in Hzero.
      exists [(s, Z.min (capacity s) n)].
      split; [reflexivity|]. cbn. repeat split; try constructor; cbn; try lia.
      constructor.
    + apply Z.eqb_neq in Hzero.
      assert (Hmin : Z.min (capacity s) n = capacity s) by lia.
      rewrite Hmin in *.
      inversion Hnodup as [|? ? Hnotin Hnodup']; subst.
      destruct (IH (n - capacity s) (acc ++ [(s, capacity s)])%list)
        as (d & Hfill & Htotal & Hkeys & Hrange & Hfull).
      * lia.
      * exact Hnodup'.
      * intros s' Hin. rewrite dict_contains_app.
        rewrite (Hfresh s' (or_intror Hin)). cbn.
        rewrite Subshell_eqb_neq; [reflexivity|].
        intros ->. contradiction.
      * exists ((s, capacity s) :: d). rewrite Hfill, <- app_assoc.
        split; [reflexivity|]. cbn [total_electrons fold_right snd].
        fold (total_electrons d). rewrite Htotal.
        split; [lia|]. split; [cbn; rewrite Hkeys at 1; reflexivity|].
        split; [constructor; [cbn; lia|exact Hrange]|].
        destruct d as [|kv d']; [constructor|].
        change (removelast ((s, capacity s) :: kv :: d'))
          with ((s, capacity s) :: removelast (kv :: d')).
        constructor; [reflexivity|exact Hfull].
Qed.

Lemma Subshell_members_NoDup : NoDup Subshell_members.
Proof.
  unfold Subshell_members.
  repeat (constructor; [cbn; intuition discriminate|]). constructor.
Qed.

Lemma fill_shells_from_empty (n : Z) :
  0 < n ->
  exists d,
    fill_shells Subshell_members n [] = Ok d /\
    total_electrons d = Z.min n 118 /\
    map fst d = firstn (length d) Subshell_members /\
    Forall (fun kv => 1 <= snd kv <= capacity (fst kv)) d /\
    Forall (fun kv => snd kv = capacity (fst kv)) (removelast d).
Proof.
  intros Hn.
  destruct (fill_shells_appends Subshell_members n [] Hn Subshell_members_NoDup)
    as (d & Hfill & Hrest); [reflexivity|].
  exists d. split; [exact Hfill|exact Hrest].
Qed.

(** X2.  Started on an empty dictionary with [n > 0] electrons, the loop
    of [ground_state] returns a dictionary that distributes [min(n, 118)]
    electrons over an initial segment of the subshells in their
    enumeration order; every entry holds at least one electron and at
    most the capacity of its subshell, and every entry but the last is
    full. *)
Theorem fill_shells_distributes (n : Z) :
  0 < n ->
  exists d,
    fill_shells Subshell_members n [] = Ok d /\
    total_electrons d = Z.min n 118 /\
    map fst d = firstn (length d) Subshell_members /\
    Forall (fun kv => 1 <= snd kv <= capacity (fst kv)) d /\
    Forall (fun kv => snd kv = capacity (fst kv)) (removelast d).
Proof. apply fill_shells_from_empty. Qed.

Lemma fill_shells_distributes_witness :
  0 < 10 /\
  exists d,
    fill_shells Subshell_members 10 [] = Ok d /\
    total_electrons d = Z.min 10 118 /\
    map fst d = firstn (length d) Subshell_members /\
    Forall (fun kv => 1 <= snd kv <= capacity (fst kv)) d /\
    Forall (fun kv => snd kv = capacity (fst kv)) (removelast d).
Proof. split; [lia|]. apply (fill_shells_distributes 10). lia. Defined.

(** ** The constructor of [ElectronicStructure] *)

Lemma insert_in_order_returns (members : list Subshell) (d : shell_dict)
  (self : ElectronicStructure) :
  (forall s v, In s members -> dict_get d s = Some v -> v <= capacity s) ->
  insert_in_order members d self = Ok self.
Proof.
  induction members as [|s rest IH]; intros H; cbn [insert_in_order];
    [reflexivity|].
  destruct (dict_contains d s) eqn:Hc; cbn [negb].
  - apply dict_contains_get in Hc. destruct Hc as [v Hv]. rewrite Hv.
    unfold ES_setitem. cbn [Subshell_call bind].
    rewrite (proj1 (maximum_electrons_capacity s)). cbn [bind].
    pose proof (H s v (or_introl eq_refl) Hv) as Hle.
    destruct (v >? capacity s) eqn:E; [apply Z.gtb_gt in E; lia|].
    cbn [bind]. apply IH. intros s' v' Hin. apply H. right. exact Hin.
  - apply IH. intros s' v' Hin. apply H. right. exact Hin.
Qed.

Lemma insert_in_order_raises (members : list Subshell) (d : shell_dict)
  (self : ElectronicStructure) (e : exn) :
  insert_in_order members d self = Raise e ->
  exists s v, dict_get d s = Some v /\ v > capacity s /\
              e = InvalidPopulation v s.
Proof.
  induction members as [|s rest IH]; cbn [insert_in_order]; [discriminate|].
  destruct (dict_contains d s) eqn:Hc; cbn [negb]; [|exact IH].
  apply dict_contains_get in Hc. destruct Hc as [v Hv]. rewrite Hv.
  unfold ES_setitem. cbn [Subshell_call bind].
  rewrite (proj1 (maximum_electrons_capacity s)). cbn [bind].
  destruct (v >? capacity s) eqn:E; cbn [bind].
  - intros H. injection H as <-. exists s, v.
    apply Z.gtb_gt in E. auto.
  - exact IH.
Qed.

Lemma normalize_keys_get (shells : list (shell_key * Z)) :
  forall acc d s v,
    normalize_keys shells acc = Ok d ->
    dict_get d s = Some v ->
    dict_get acc s = Some v \/
    exists k, In (k, v) shells /\ Subshell_call k = Ok s.
Proof.
  induction shells as [|[k w] rest IH]; intros acc d s v; cbn [normalize_keys].
  - intros H. injection H as <-. auto.
  - destruct (Subshell_call k) as [sk|e] eqn:Hk; cbn [bind]; [|discriminate].
    intros Hn Hg. destruct (IH _ _ _ _ Hn Hg) as [Hacc|(k' & Hin & Hk')].
    + rewrite dict_get_set in Hacc.
      destruct (Subshell_eqb sk s) eqn:E.
      * apply Subshell_eqb_eq in E. subst sk. injection Hacc as ->.
        right. exists k. split; [left; reflexivity|exact Hk].
      * left. exact Hacc.
    + right. exists k'. split; [right; exact Hin|exact Hk'].
Qed.

Lemma normalize_keys_raises (shells : list (shell_key * Z)) :
  forall acc e,
    normalize_keys shells acc = Raise e ->
    exists k v, In (k, v) shells /\ Subshell_call k = Raise e.
Proof.
  induction shells as [|[k w] rest IH]; intros acc e; cbn [normalize_keys];
    [discriminate|].
  destruct (Subshell_call k) as [sk|e'] eqn:Hk; cbn [bind].
  - intros H. destruct (IH _ _ H) as (k' & v & Hin & Hk').
    exists k', v. split; [right; exact Hin|exact Hk'].
  - intros H. injection H as <-. exists k, w.
    split; [left; reflexivity|exact Hk].
Qed.

Lemma normalize_keys_returns (shells : list (shell_key * Z)) :
  forall acc,
    (forall k v, In (k, v) shells -> exists s, Subshell_call k = Ok s) ->
    exists d, normalize_keys shells acc = Ok d.
Proof.
  induction shells as [|[k w] rest IH]; intros acc H; cbn [normalize_keys].
  - eexists. reflexivity.
  - destruct (H k w (or_introl eq_refl)) as [s ->]. cbn [bind].
    apply IH. intros k' v' Hin. apply (H k' v'). right. exact Hin.
Qed.

Lemma insert_in_order_checked (members : list Subshell) (d : shell_dict)
  (self self' : ElectronicStructure) :
  insert_in_order members d self = Ok self' ->
  forall s v, In s members -> dict_get d s = Some v -> v <= capacity s.
Proof.
  revert self. induction members as [|m rest IH]; intros self;
    cbn [insert_in_order]; [intros _ s v []|].
  destruct (dict_contains d m) eqn:Hc; cbn [negb].
  - apply dict_contains_get in Hc. destruct Hc as [w Hw]. rewrite Hw.
    unfold ES_setitem. cbn [Subshell_call bind].
    rewrite (proj1 (maximum_electrons_capacity m)). cbn [bind].
    destruct (w >? capacity m) eqn:E; cbn [bind]; [discriminate|].
    intros H s v [<-|Hin] Hg.
    + rewrite Z.gtb_ltb in E. apply Z.ltb_ge in E. congruence.
    + eapply IH; eassumption.
  - intros H s v [<-|Hin] Hg.
    + assert (dict_contains d m = true)
        by (apply dict_contains_get; eauto).
      congruence.
    + eapply IH; eassumption.
Qed.

Lemma Subshell_members_complete (s : Subshell) : In s Subshell_members.
Proof. destruct s; cbn; tauto. Qed.

Lemma ES_init_accepts (shells : list (shell_key * Z)) :
  (forall k v, In (k, v) shells ->
               exists s, Subshell_call k = Ok s /\ v <= capacity s) ->
  ES_init shells = Ok (mkES []).
Proof.
  intros H. unfold ES_init.
  destruct (normalize_keys_returns shells []) as [d Hd].
  { intros k v Hin. destruct (H k v Hin) as (s & Hs & _). eauto. }
  rewrite Hd. cbn [bind]. apply insert_in_order_returns.
  intros s v _ Hg.
  destruct (normalize_keys_get _ _ _ _ _ Hd Hg) as [Hnil|(k & Hin & Hk)];
    [discriminate Hnil|].
  destruct (H k v Hin) as (s' & Hs' & Hle). congruence.
Qed.

(** X3.  The constructor returns exactly when every key normalises to a
    subshell and, in the dictionary of normalised keys, no value exceeds
    the capacity of its subshell; in particular it returns when every
    supplied entry has a valid key and a value within capacity. *)
Theorem ES_init_returns_iff (shells : list (shell_key * Z)) :
  ((exists self, ES_init shells = Ok self)
   <-> exists d, normalize_keys shells [] = Ok d /\
                 forall s v, dict_get d s = Some v -> v <= capacity s) /\
  ((forall k v, In (k, v) shells ->
                exists s, Subshell_call k = Ok s /\ v <= capacity s) ->
   exists self, ES_init shells = Ok self).
Proof.
  split; [|intros H; eexists; apply ES_init_accepts; exact H].
  unfold ES_init. split.
  - intros [self H].
    destruct (normalize_keys shells []) as [d|e]; cbn [bind] in H;
      [|discriminate H].
    exists d. split; [reflexivity|]. intros s v.
    eapply insert_in_order_checked; [exact H|apply Subshell_members_complete].
  - intros (d & -> & H). cbn [bind]. eexists.
    apply insert_in_order_returns. intros s v _. apply H.
Qed.

Lemma ES_init_returns_iff_witness :
  (forall k v, In (k, v) [(KLabel "2p", 6); (KShell one_s, 0)] ->
               exists s, Subshell_call k = Ok s /\ v <= capacity s) /\
  exists self, ES_init [(KLabel "2p", 6); (KShell one_s, 0)] = Ok self.
Proof.
  assert (H : forall k v, In (k, v) [(KLabel "2p", 6); (KShell one_s, 0)] ->
                          exists s, Subshell_call k = Ok s /\ v <= capacity s).
  { intros k v [E|[E|[]]]; injection E as <- <-; eexists;
      (split; [reflexivity|vm_compute; discriminate]). }
  split; [exact H|].
  exact (proj2 (ES_init_returns_iff [(KLabel "2p", 6); (KShell one_s, 0)]) H).
Defined.

(** X4.  When the constructor raises, the exception is the
    invalid-subshell error for a supplied label that no member has, or
    the invalid-population error for a supplied entry whose value exceeds
    the capacity of its subshell. *)
Theorem ES_init_raises (shells : list (shell_key * Z)) (e : exn) :
  ES_init shells = Raise e ->
  (exists label v,
     In (KLabel label, v) shells /\
     (forall member, value member <> label) /\
     e = InvalidSubshell label) \/
  (exists k v s,
     In (k, v) shells /\ Subshell_call k = Ok s /\
     v > capacity s /\ e = InvalidPopulation v s).
Proof.
  unfold ES_init.
  destruct (normalize_keys shells []) as [d|e'] eqn:Hd; cbn [bind].
  - intros H. right.
    destruct (insert_in_order_raises _ _ _ _ H) as (s & v & Hg & Hgt & ->).
    destruct (normalize_keys_get _ _ _ _ _ Hd Hg) as [Hnil|(k & Hin & Hk)];
      [discriminate Hnil|].
    exists k, v, s. auto.
  - intros H. injection H as <-. left.
    destruct (normalize_keys_raises _ _ _ Hd) as (k & v & Hin & Hk).
    destruct k as [s|label]; [discriminate Hk|].
    assert (e' = InvalidSubshell label) as ->.
    { unfold Subshell_call in Hk.
      destruct (find_member label Subshell_members); [discriminate Hk|].
      injection Hk as <-. reflexivity. }
    exists label, v. split; [exact Hin|]. split; [|reflexivity].
    apply Subshell_call_raises. exact Hk.
Qed.

Lemma ES_init_raises_witness :
  ES_init [(KLabel "1s", 2); (KLabel "3d", 11)]
    = Raise (InvalidPopulation 11 three_d) /\
  ((exists label v,
      In (KLabel label, v) [(KLabel "1s", 2); (KLabel "3d", 11)] /\
      (forall member, value member <> label) /\
      InvalidPopulation 11 three_d = InvalidSubshell label) \/
   (exists k v s,
      In (k, v) [(KLabel "1s", 2); (KLabel "3d", 11)] /\
      Subshell_call k = Ok s /\
      v > capacity s /\ InvalidPopulation 11 three_d = InvalidPopulation v s)).
Proof.
  split; [reflexivity|].
  apply (ES_init_raises [(KLabel "1s", 2); (KLabel "3d", 11)]). reflexivity.
Defined.

(** ** Symbols and atomic numbers *)

Lemma valid_symbols_In (s : string) :
  valid_symbols s = true <-> In s chemical_symbols.
Proof.
  unfold valid_symbols. rewrite existsb_exists. split.
  - intros (x & Hin & Heq). apply String.eqb_eq in Heq. subst x. exact Hin.
  - intros Hin. exists s. split; [exact Hin|apply String.eqb_refl].
Qed.

Lemma index_from_nth (l : list string) :
  forall i s n,
    index_from i s l = Some n ->
    i <= n /\ nth_error l (Z.to_nat (n - i)) = Some s.
Proof.
  induction l as [|x rest IH]; intros i s n; cbn [index_from]; [discriminate|].
  destruct (String.eqb s x) eqn:E.
  - intros H. injection H as <-. apply String.eqb_eq in E. subst x.
    rewrite Z.sub_diag. split; [lia|reflexivity].
  - intros H. apply IH in H. destruct H as [Hle Hnth]. split; [lia|].
    replace (Z.to_nat (n - i)) with (S (Z.to_nat (n - (i + 1)))) by lia.
    exact Hnth.
Qed.

Lemma index_from_In (l : list string) :
  forall i s, In s l -> exists n, index_from i s l = Some n.
Proof.
  induction l as [|x rest IH]; intros i s; cbn [index_from In]; [tauto|].
  destruct (String.eqb s x) eqn:E; [eauto|].
  intros [->|Hin]; [rewrite String.eqb_refl in E; discriminate|].
  apply IH. exact Hin.
Qed.

(** A symbol has the atomic number of the symbol it is equal to only. *)
Lemma ELEM_TO_NUM_injective (s s' : string) (n : Z) :
  ELEM_TO_NUM s = Some n -> ELEM_TO_NUM s' = Some n -> s = s'.
Proof.
  unfold ELEM_TO_NUM. intros H H'.
  apply index_from_nth in H. apply index_from_nth in H'.
  destruct H as [_ H]. destruct H' as [_ H']. congruence.
Qed.

Lemma NUM_TO_ELEM_table (n : Z) (s : string) :
  NUM_TO_ELEM n = Some s -> title s = s /\ ELEM_TO_NUM s = Some n.
Proof.
  unfold NUM_TO_ELEM. destruct (n <=? 0) eqn:Hn; [discriminate|].
  apply Z.leb_gt in Hn. intros Hnth.
  assert (Hlt : (Z.to_nat (n - 1) < 118)%nat).
  { change 118%nat with (length chemical_symbols).
    apply nth_error_Some. rewrite Hnth. discriminate. }
  assert (Hall : forallb
            (fun k => match nth_error chemical_symbols k with
                      | Some x =>
                          (String.eqb (title x) x &&
                           match ELEM_TO_NUM x with
                           | Some m => m =? Z.of_nat k + 1
                           | None => false
                           end)%bool
                      | None => false
                      end) (seq 0 118) = true) by (vm_compute; reflexivity).
  rewrite forallb_forall in Hall.
  specialize (Hall (Z.to_nat (n - 1))). rewrite Hnth in Hall.
  assert (Hin : In (Z.to_nat (n - 1)) (seq 0 118)) by (apply in_seq; lia).
  apply Hall in Hin. apply andb_prop in Hin. destruct Hin as [Ht Hnum].
  apply String.eqb_eq in Ht. split; [exact Ht|].
  destruct (ELEM_TO_NUM s) as [m|]; [|discriminate].
  apply Z.eqb_eq in Hnum. f_equal. lia.
Qed.

Lemma Element_init_valid (arg : element_arg) (e : Element) :
  Element_init arg = Ok e ->
  valid_symbols (element e) = true /\ title (element e) = element e.
Proof.
  intros H. apply Element_init_canonical in H. revert H.
  unfold Element_init. cbn [bind].
  destruct (valid_symbols (title (element e))) eqn:Hv; cbn [negb];
    [|discriminate].
  intros H. injection H as H. destruct e as [s]. cbn [element] in *.
  injection H as H. rewrite H in Hv. auto.
Qed.

Lemma atomic_number_returns (arg : element_arg) (e : Element) :
  Element_init arg = Ok e ->
  exists n, atomic_number e = Ok n /\ NUM_TO_ELEM n = Some (element e).
Proof.
  intros H. apply Element_init_valid in H. destruct H as [Hv _].
  apply valid_symbols_In in Hv.
  destruct (index_from_In _ 1 _ Hv) as [n Hn].
  exists n. unfold atomic_number, ELEM_TO_NUM. rewrite Hn.
  split; [reflexivity|].
  apply index_from_nth in Hn. destruct Hn as [Hle Hnth].
  unfold NUM_TO_ELEM. destruct (n <=? 0) eqn:E; [apply Z.leb_le in E; lia|].
  exact Hnth.
Qed.

Lemma Element_init_renumber (arg : element_arg) (e : Element) :
  Element_init arg = Ok e ->
  exists n, atomic_number e = Ok n /\ Element_init (Num n) = Ok e.
Proof.
  intros H. destruct (atomic_number_returns arg e H) as (n & Hn & Hs).
  exists n. split; [exact Hn|].
  apply Element_init_canonical in H. revert H.
  unfold Element_init. rewrite Hs. cbn [bind]. tauto.
Qed.

Lemma atomic_number_of_Num (n : Z) (e : Element) :
  Element_init (Num n) = Ok e -> atomic_number e = Ok n.
Proof.
  unfold Element_init.
  destruct (NUM_TO_ELEM n) as [s|] eqn:Hs; cbn [bind]; [|discriminate].
  apply NUM_TO_ELEM_table in Hs. destruct Hs as [Ht Hnum]. rewrite Ht.
  destruct (valid_symbols s); cbn [negb]; [|discriminate].
  intros H. injection H as <-. unfold atomic_number. cbn [element].
  rewrite Hnum. reflexivity.
Qed.

(** X6.  Every constructed element has an atomic number, and
    constructing from that number gives the element back; an element
    constructed from a number has that number as its atomic number; and
    construction from a number raises [KeyError] exactly when the number
    is not in the table. *)
Theorem Element_number_roundtrip :
  (forall arg e,
     Element_init arg = Ok e ->
     exists n, atomic_number e = Ok n /\ Element_init (Num n) = Ok e) /\
  (forall n e, Element_init (Num n) = Ok e -> atomic_number e = Ok n) /\
  (forall n, Element_init (Num n) = Raise (KeyError_number n)
             <-> NUM_TO_ELEM n = None).
Proof.
  split; [exact Element_init_renumber|]. split; [exact atomic_number_of_Num|].
  intros n. unfold Element_init.
  destruct (NUM_TO_ELEM n) as [s|]; cbn [bind].
  - destruct (negb (valid_symbols (title s))); split; discriminate.
  - split; reflexivity.
Qed.

(** X7.  Two constructed elements have a hash, and they compare equal
    exactly when their hashes are equal. *)
Theorem Element_eq_iff_hash (arg1 arg2 : element_arg) (e1 e2 : Element) :
  Element_init arg1 = Ok e1 ->
  Element_init arg2 = Ok e2 ->
  (exists n, Element_hash e1 = Ok n) /\
  (Element_eq e1 e2 = true <-> Element_hash e1 = Element_hash e2).
Proof.
  intros H1 H2.
  destruct (atomic_number_returns _ _ H1) as (n1 & Hn1 & _).
  destruct (atomic_number_returns _ _ H2) as (n2 & Hn2 & _).
  unfold Element_hash. split; [eauto|].
  unfold Element_eq. rewrite String.eqb_eq. split.
  - intros Heq. unfold atomic_number. rewrite Heq. reflexivity.
  - rewrite Hn1, Hn2. intros H. injection H as <-.
    unfold atomic_number in *.
    destruct (ELEM_TO_NUM (element e1)) as [m1|] eqn:E1; [|discriminate].
    destruct (ELEM_TO_NUM (element e2)) as [m2|] eqn:E2; [|discriminate].
    injection Hn1 as ->. injection Hn2 as ->.
    eapply ELEM_TO_NUM_injective; eassumption.
Qed.

Lemma Element_eq_iff_hash_witness :
  Element_init (Sym "he") = Ok (mkElement "He") /\
  Element_init (Num 2) = Ok (mkElement "He") /\
  (exists n, Element_hash (mkElement "He") = Ok n) /\
  (Element_eq (mkElement "He") (mkElement "He") = true
     <-> Element_hash (mkElement "He") = Element_hash (mkElement "He")).
Proof.
  split; [reflexivity|]. split; [reflexivity|].
  apply (Element_eq_iff_hash (Sym "he") (Num 2)); reflexivity.
Defined.

(** X8.  For every valid element, the dictionary [ground_state] fills
    distributes exactly as many electrons as the atomic number, over an
    initial segment of the subshells in enumeration order, every entry
    within capacity and all but the last full; and [ground_state]
    returns: the capacity check of the constructor never fires. *)
Theorem ground_state_structure_conserves (arg : element_arg) (e : Element) :
  Element_init arg = Ok e ->
  exists n d,
    atomic_number e = Ok n /\
    ground_state_structure arg = Ok d /\
    total_electrons d = n /\
    map fst d = firstn (length d) Subshell_members /\
    Forall (fun kv => 1 <= snd kv <= capacity (fst kv)) d /\
    Forall (fun kv => snd kv = capacity (fst kv)) (removelast d) /\
    exists es, ground_state arg = Ok es.
Proof.
  intros He. destruct (atomic_number_returns arg e He) as (n & Hn & Hs).
  assert (Hrange : 1 <= n <= 118).
  { unfold NUM_TO_ELEM in Hs. destruct (n <=? 0) eqn:E; [discriminate|].
    apply Z.leb_gt in E.
    assert ((Z.to_nat (n - 1) < length chemical_symbols)%nat)
      by (apply nth_error_Some; rewrite Hs; discriminate).
    cbn [length chemical_symbols] in *. lia. }
  destruct (fill_shells_from_empty n) as (d & Hd & Ht & Hk & Hr & Hf); [lia|].
  exists n, d. unfold ground_state, ground_state_structure.
  rewrite He. cbn [bind]. rewrite Hn. cbn [bind]. rewrite Hd.
  split; [reflexivity|]. split; [reflexivity|].
  split; [lia|]. split; [exact Hk|]. split; [exact Hr|]. split; [exact Hf|].
  cbn [bind]. exists (mkES []). apply ES_init_accepts.
  intros k v Hin. apply in_map_iff in Hin.
  destruct Hin as ([s w] & Heq & Hin). cbn [fst snd] in Heq.
  injection Heq as <- <-. exists s. split; [reflexivity|].
  rewrite Forall_forall in Hr. apply (Hr (s, w) Hin).
Qed.

Lemma ground_state_structure_conserves_witness :
  Element_init (Sym "fe") = Ok (mkElement "Fe") /\
  exists n d,
    atomic_number (mkElement "Fe") = Ok n /\
    ground_state_structure (Sym "fe") = Ok d /\
    total_electrons d = n /\
    map fst d = firstn (length d) Subshell_members /\
    Forall (fun kv => 1 <= snd kv <= capacity (fst kv)) d /\
    Forall (fun kv => snd kv = capacity (fst kv)) (removelast d) /\
    exists es, ground_state (Sym "fe") = Ok es.
Proof.
  split; [reflexivity|].
  apply (ground_state_structure_conserves (Sym "fe") (mkElement "Fe")).
  reflexivity.
Defined.

(** X9.  Construction from a symbol depends on the symbol only through
    its title-cased form: a symbol and its title-cased form give the same
    result, as do two symbols with the same title-cased form; the symbol
    stored is the title-cased one, and it is valid. *)
Theorem Element_init_case_insensitive (s s' : string) :
  Element_init (Sym (title s)) = Element_init (Sym s) /\
  (title s = title s' -> Element_init (Sym s) = Element_init (Sym s')) /\
  (forall e, Element_init (Sym s) = Ok e ->
             element e = title s /\ valid_symbols (element e) = true).
Proof.
  unfold Element_init. cbn [bind]. rewrite title_idempotent.
  split; [reflexivity|]. split; [intros ->; reflexivity|].
  intros e. destruct (valid_symbols (title s)) eqn:Hv; cbn [negb];
    [|discriminate].
  intros H. injection H as <-. cbn [element]. auto.
Qed.

(** ** Rounding *)


Lemma rint_compat (x y : Q) : (x == y)%Q -> rint x = rint y.
Proof.
  intros E. unfold rint. rewrite (Qfloor_comp _ _ E).
  assert (Hc : (x - inject_Z (Qfloor y) ?= 1 # 2)%Q
               = (y - inject_Z (Qfloor y) ?= 1 # 2)%Q).
  { apply Qcompare_comp; [rewrite E; reflexivity|reflexivity]. }
  rewrite Hc. reflexivity.
Qed.

Lemma round3_compat (x y : Q) : (x == y)%Q -> round3 x = round3 y.
Proof.
  intros E. unfold round3. rewrite (rint_compat (x * 1000) (y * 1000)).
  - reflexivity.
  - rewrite E. reflexivity.
Qed.



Lemma vec3_round3_compat (u v : vec3) :
  vec3_equiv u v -> vec3_round3 u = vec3_round3 v.
Proof.
  intros (Hx & Hy & Hz). unfold vec3_round3.
  rewrite (round3_compat _ _ Hx), (round3_compat _ _ Hy),
    (round3_compat _ _ Hz). reflexivity.
Qed.

Lemma vec3_eqb_refl (v : vec3) : vec3_eqb v v = true.
Proof.
  unfold vec3_eqb. rewrite !(proj2 (Qeq_bool_iff _ _) (Qeq_refl _)).
  reflexivity.
Qed.

(** ** Atoms, further *)

Section AtomExtras.

Variable ELEM_TO_MAGMOM : string -> option moment.
Variable Lattice_eq : Lattice -> Lattice -> bool.

(** X10.  The outcomes of the atom constructor.  An error of the
    element constructor is raised as it is.  With a valid element and a
    supplied moment different from zero (a NaN included), the constructor
    returns and stores that moment, whatever the table of ground-state
    moments holds.
    With no moment, or a moment equal to zero, it stores the ground-state
    moment of the element if the table has one and raises [KeyError] for
    the symbol otherwise. *)
Theorem Atom_init_outcomes cls arg coords lat disp mm occ tg :
  (forall err, Element_init arg = Raise err ->
     Atom_init ELEM_TO_MAGMOM cls arg coords lat disp mm occ tg = Raise err) /\
  (forall e m, Element_init arg = Ok e -> mm = Some m ->
     moment_truthy m = true ->
     exists a, Atom_init ELEM_TO_MAGMOM cls arg coords lat disp mm occ tg
               = Ok a /\ as_Element a = e /\ magmom a = m) /\
  (forall e, Element_init arg = Ok e ->
     (mm = None \/ exists m, mm = Some m /\ moment_truthy m = false) ->
     match ELEM_TO_MAGMOM (element e) with
     | Some g =>
         exists a, Atom_init ELEM_TO_MAGMOM cls arg coords lat disp mm occ tg
                   = Ok a /\ as_Element a = e /\ magmom a = g
     | None =>
         Atom_init ELEM_TO_MAGMOM cls arg coords lat disp mm occ tg
         = Raise (KeyError_symbol (element e))
     end).
Proof.
  unfold Atom_init, magnetic_moment_ground. split; [|split].
  - intros err ->. reflexivity.
  - intros e m -> -> ->. cbn [bind]. eexists. repeat split.
  - intros e -> [->|(m & -> & ->)]; cbn [bind];
      destruct (ELEM_TO_MAGMOM (element e)); cbn [bind];
      try reflexivity; eexists; repeat split.
Qed.

(** X11.  For an atom built by the constructor, transforming by a list
    of matrices and then by a second list returns the atom that
    transforming once by the first list followed by the second returns;
    its coordinates are the matrices applied in order to the coordinates
    of the receiver. *)
Theorem Atom_transform_composes cls arg coords lat disp mm occ tg a ms1 ms2 :
  Atom_init ELEM_TO_MAGMOM cls arg coords lat disp mm occ tg = Ok a ->
  exists n1 n2,
    Atom_transform ELEM_TO_MAGMOM a ms1 = Ok (a, n1) /\
    Atom_transform ELEM_TO_MAGMOM n1 ms2 = Ok (n1, n2) /\
    Atom_transform ELEM_TO_MAGMOM a (ms1 ++ ms2)%list = Ok (a, n2) /\
    coords_fractional n2
      = fold_left (fun c m => transform m c) (ms1 ++ ms2)%list
                  (coords_fractional a).
Proof.
  intros H. apply Atom_init_invariant in H. destruct H as [He Hm].
  unfold Atom_transform at 1 3.
  rewrite !(Atom_init_from_fields ELEM_TO_MAGMOM a _ _ _ _ He Hm).
  cbn [bind]. do 2 eexists. split; [reflexivity|].
  unfold Atom_transform.
  rewrite (Atom_init_from_fields ELEM_TO_MAGMOM
             (mkAtom (class_of a) (as_Element a) _ (lattice a)
                     (displacement a) (magmom a) (occupancy a) None)
             _ _ _ _ He Hm).
  cbn [bind class_of as_Element coords_fractional lattice displacement magmom
       occupancy].
  rewrite fold_left_app. repeat split.
Qed.

(** X12.  Two atoms of the same element whose moments, coordinates and
    displacements are equal as numbers, on lattices that compare equal,
    compare equal and are hashed from equal tuples, whatever their class,
    occupancy and tag. *)
Theorem Atom_hash_key_respects_values (a b : Atom) (k1 : hash_key) :
  Element_eq (as_Element a) (as_Element b) = true ->
  moment_eqb (magmom a) (magmom b) = true ->
  vec3_equiv (coords_fractional a) (coords_fractional b) ->
  Lattice_eq (lattice a) (lattice b) = true ->
  vec3_equiv (displacement a) (displacement b) ->
  Atom_hash_key a = Ok k1 ->
  exists k2,
    Atom_hash_key b = Ok k2 /\
    hash_key_eqb Lattice_eq k1 k2 = true /\
    Atom_eq Lattice_eq a b = true.
Proof.
  intros He Hm Hc Hl Hd. unfold Atom_hash_key, Element_hash, atomic_number.
  pose proof He as He'. unfold Element_eq in He'. apply String.eqb_eq in He'.
  rewrite <- He'.
  destruct (ELEM_TO_NUM (element (as_Element a))) as [n|]; cbn [bind];
    [|discriminate].
  intros H. injection H as <-. eexists. split; [reflexivity|].
  unfold hash_key_eqb, Atom_eq.
  cbn [key_element key_magmom key_coords key_lattice key_displacement].
  rewrite Z.eqb_refl, Hm, Hl, He.
  rewrite (vec3_round3_compat _ _ Hc), (vec3_round3_compat _ _ Hd).
  rewrite !vec3_eqb_refl, !allclose_equiv by assumption.
  split; reflexivity.
Qed.


(** X14.  [is_element] returns the same predicate for an element and
    for what the element was constructed from, and on an atom built by
    the constructor the predicate holds exactly when the atom is of that
    element. *)
Theorem is_element_compares_elements x e cls arg coords lat disp mm occ tg atm :
  Element_init x = Ok e ->
  Atom_init ELEM_TO_MAGMOM cls arg coords lat disp mm occ tg = Ok atm ->
  exists f,
    is_element (FromArg x) = Ok f /\
    is_element (FromElement e) = Ok f /\
    f atm = Ok (Element_eq (as_Element atm) e).
Proof.
  intros Hx Hatm. apply Atom_init_fields in Hatm.
  destruct Hatm as (Ha & _).
  unfold is_element. rewrite Hx. cbn [bind]. eexists.
  split; [reflexivity|]. split; [reflexivity|].
  destruct (atomic_number_returns _ _ Ha) as (n1 & Hn1 & _).
  destruct (atomic_number_returns _ _ Hx) as (n2 & Hn2 & _).
  rewrite Hn1, Hn2. cbn [bind]. f_equal.
  unfold atomic_number in *.
  destruct (ELEM_TO_NUM (element (as_Element atm))) as [m1|] eqn:E1;
    [|discriminate].
  destruct (ELEM_TO_NUM (element e)) as [m2|] eqn:E2; [|discriminate].
  injection Hn1 as ->. injection Hn2 as ->.
  unfold Element_eq.
  destruct (n1 =? n2) eqn:En.
  - apply Z.eqb_eq in En. subst n2.
    rewrite (ELEM_TO_NUM_injective _ _ _ E1 E2). symmetry.
    apply String.eqb_refl.
  - symmetry. apply String.eqb_neq. intros Heq. rewrite Heq in E1.
    rewrite E1 in E2. injection E2 as ->. rewrite Z.eqb_refl in En.
    discriminate.
Qed.

(** X15.  The array of an atom built by the constructor is the atomic
    number of its element followed by the fractional coordinates given to
    the constructor; the number builds the element back, and is the
    number the atom was constructed from when it was constructed from
    one. *)
Theorem Atom_array_exports cls arg coords lat disp mm occ tg a :
  Atom_init ELEM_TO_MAGMOM cls arg coords lat disp mm occ tg = Ok a ->
  exists n,
    Atom_array a = Ok (mkVec4 (inject_Z n) (vx coords) (vy coords) (vz coords))
    /\ Element_init (Num n) = Ok (as_Element a)
    /\ (forall z, arg = Num z -> n = z).
Proof.
  intros H. apply Atom_init_fields in H.
  destruct H as (He & _ & Hc & _).
  destruct (Element_init_renumber _ _ He) as (n & Hn & Hnum).
  exists n. unfold Atom_array. rewrite Hn, Hc. cbn [bind].
  split; [reflexivity|]. split; [exact Hnum|].
  intros z ->. apply atomic_number_of_Num in He. congruence.
Qed.

End AtomExtras.

(** ** The norm *)

Lemma norm_nonneg (v : vec3) : (0 <= norm v)%R.
Proof. apply sqrt_pos. Qed.

Lemma norm_sub_self (v : vec3) : norm (vec3_sub v v) = 0%R.
Proof.
  unfold norm.
  assert (E : (dot3 (vec3_sub v v) (vec3_sub v v) == 0)%Q)
    by (unfold dot3, vec3_sub; cbn [vx vy vz]; ring).
  rewrite (Qeq_eqR _ _ E), RMicromega.Q2R_0. apply sqrt_0.
Qed.

Lemma norm_compat (u v : vec3) : vec3_equiv u v -> norm u = norm v.
Proof.
  intros (Hx & Hy & Hz). unfold norm, dot3. f_equal. apply Qeq_eqR.
  rewrite Hx, Hy, Hz. reflexivity.
Qed.

Lemma real_coords_eye3 (v : vec3) :
  exists r, real_coords v eye3_basis = Ok r /\ vec3_equiv r v.
Proof.
  destruct v as [x y z].
  unfold real_coords, change_of_basis.
  destruct mat3_inv_eye3 as [m Hm]. rewrite Hm. cbn [bind].
  eexists. split; [reflexivity|].
  unfold mat3_inv in Hm. cbn [columns eye3_basis] in Hm.
  injection Hm as <-.
  unfold vec3_equiv, transform, mat3_apply, mat3_mul, dot3, col1, col2, col3,
    columns, eye3_basis, det3.
  cbn [vx vy vz row1 row2 row3].
  repeat split; field.
Qed.

(** ** Conversions, further *)

Lemma frac_coords_eye3 (v r : vec3) :
  frac_coords v eye3_basis = Ok r -> vec3_equiv r v.
Proof.
  destruct v as [x y z].
  unfold frac_coords, change_of_basis.
  destruct mat3_inv_eye3 as [m Hm]. rewrite Hm. cbn [bind].
  intros H. injection H as <-.
  unfold mat3_inv in Hm. cbn [columns eye3_basis] in Hm.
  injection Hm as <-.
  unfold vec3_equiv, transform, mat3_apply, mat3_mul, dot3, col1, col2, col3,
    columns, eye3_basis, det3.
  cbn [vx vy vz row1 row2 row3].
  repeat split; field.
Qed.

(** X17.  When [from_ase] returns, the atom is of the class it was
    called on and its element is the one of the symbol; it sits on the
    identity lattice, whatever the cell, with no displacement, full
    occupancy and no tag; its coordinates are what [frac_coords] returns
    for the position in the cell, and they are the position itself when
    the ASE atom belongs to no [Atoms] object; its moment is the ASE
    moment when that is not zero and the ground-state moment of the
    element when it is. *)
Theorem Atom_from_ase_outcome (ELEM_TO_MAGMOM : string -> option moment)
  (cls : klass) (atom : ase_Atom) (a : Atom) :
  Atom_from_ase ELEM_TO_MAGMOM cls atom = Ok a ->
  class_of a = cls /\
  Element_init (Sym (ase_symbol atom)) = Ok (as_Element a) /\
  lattice a = mkLattice eye3_basis /\
  displacement a = mkVec3 0 0 0 /\
  occupancy a = 1%Q /\
  tag a = None /\
  frac_coords (ase_position atom)
              (match ase_cell atom with
               | Some cell => cell
               | None => eye3_basis
               end) = Ok (coords_fractional a) /\
  (ase_cell atom = None ->
   vec3_equiv (coords_fractional a) (ase_position atom)) /\
  (if moment_truthy (ase_magmom atom) then magmom a = ase_magmom atom
   else magnetic_moment_ground ELEM_TO_MAGMOM (as_Element a)
        = Ok (magmom a)).
Proof.
  unfold Atom_from_ase.
  destruct (frac_coords (ase_position atom) _) as [c|err] eqn:Hc;
    cbn [bind]; [|discriminate].
  intros H. apply Atom_init_fields in H.
  destruct H as (He & Hcls & Hco & Hl & Hd & Ho & Ht & Hm). subst c.
  do 7 (split; [assumption || reflexivity|]). split.
  - intros Hnone. rewrite Hnone in Hc. apply frac_coords_eye3. exact Hc.
  - destruct Hm as [(m & Hs & Htr & Hm)|[[Hn|(m & Hs & Hf)] Hg]].
    + injection Hs as <-. rewrite Htr. exact Hm.
    + discriminate Hn.
    + injection Hs as <-. rewrite Hf. exact Hg.
Qed.

Lemma Atom_from_ase_outcome_witness :
  exists a,
    Atom_from_ase example_magmom (class_subclass "Site")
      (mkAseAtom "h" (mkVec3 1 2 3) (Moment 0) (Some triclinic_vectors))
    = Ok a /\
    class_of a = class_subclass "Site" /\
    Element_init (Sym "h") = Ok (as_Element a) /\
    lattice a = mkLattice eye3_basis /\
    displacement a = mkVec3 0 0 0 /\
    occupancy a = 1%Q /\
    tag a = None /\
    frac_coords (mkVec3 1 2 3) triclinic_vectors
      = Ok (coords_fractional a) /\
    (Some triclinic_vectors = None ->
     vec3_equiv (coords_fractional a) (mkVec3 1 2 3)) /\
    magnetic_moment_ground example_magmom (as_Element a) = Ok (magmom a).
Proof.
  eexists. split; [vm_compute; reflexivity|].
  apply (Atom_from_ase_outcome example_magmom (class_subclass "Site")
           (mkAseAtom "h" (mkVec3 1 2 3) (Moment 0) (Some triclinic_vectors))).
  vm_compute. reflexivity.
Defined.

(** ** Distances, further *)

Section DistanceExtras.

Variable Lattice_eq : Lattice -> Lattice -> bool.

Lemma distance_fractional_value (a b : Atom) (d : R) :
  distance_fractional Lattice_eq a b = Ok d ->
  d = norm (vec3_sub (coords_fractional a) (coords_fractional b)).
Proof.
  unfold distance_fractional.
  destruct (Lattice_eq (lattice a) (lattice b)); cbn [negb]; [|discriminate].
  intros H. injection H as <-. reflexivity.
Qed.

Lemma distance_cartesian_value (a b : Atom) (d : R) :
  distance_cartesian Lattice_eq a b = Ok d ->
  exists ca cb,
    coords_cartesian a = Ok ca /\ coords_cartesian b = Ok cb /\
    d = norm (vec3_sub ca cb).
Proof.
  unfold distance_cartesian.
  destruct (Lattice_eq (lattice a) (lattice b)); cbn [negb]; [|discriminate].
  destruct (coords_cartesian_returns a) as [ca Ha].
  destruct (coords_cartesian_returns b) as [cb Hb].
  rewrite Ha, Hb. cbn [bind]. intros H. injection H as <-.
  exists ca, cb. auto.
Qed.

(** X18.  A distance that either function returns is not negative, and
    it is zero when the two atoms have the same fractional coordinates on
    the same lattice. *)
Theorem distance_sign_and_zero (a b : Atom) (d : R) :
  distance_fractional Lattice_eq a b = Ok d \/
  distance_cartesian Lattice_eq a b = Ok d ->
  (0 <= d)%R /\
  (coords_fractional a = coords_fractional b -> lattice a = lattice b ->
   d = 0%R).
Proof.
  intros [H|H].
  - apply distance_fractional_value in H. subst d.
    split; [apply norm_nonneg|]. intros -> _. apply norm_sub_self.
  - apply distance_cartesian_value in H.
    destruct H as (ca & cb & Ha & Hb & ->).
    split; [apply norm_nonneg|]. intros Hc Hl.
    unfold coords_cartesian in Ha, Hb. rewrite Hc, Hl in Ha.
    assert (ca = cb) by congruence. subst cb. apply norm_sub_self.
Qed.

(** X20.  On the identity lattice the Cartesian coordinates of an atom
    are its fractional coordinates, and the Cartesian distance between
    two atoms is their fractional distance. *)
Theorem distance_on_identity_lattice (a b : Atom) :
  lattice a = mkLattice eye3_basis ->
  lattice b = mkLattice eye3_basis ->
  (exists c, coords_cartesian a = Ok c /\
             vec3_equiv c (coords_fractional a)) /\
  distance_cartesian Lattice_eq a b = distance_fractional Lattice_eq a b.
Proof.
  intros Ha Hb. unfold distance_cartesian, distance_fractional,
                  coords_cartesian.
  rewrite Ha, Hb. cbn [lattice_vectors].
  destruct (real_coords_eye3 (coords_fractional a)) as (ca & Hca & Ea).
  destruct (real_coords_eye3 (coords_fractional b)) as (cb & Hcb & Eb).
  rewrite Hca, Hcb. cbn [bind]. split; [eauto|].
  destruct (negb (Lattice_eq (mkLattice eye3_basis) (mkLattice eye3_basis)));
    [reflexivity|].
  f_equal. apply norm_compat.
  destruct Ea as (Ex & Ey & Ez). destruct Eb as (Fx & Fy & Fz).
  unfold vec3_equiv, vec3_sub. cbn [vx vy vz].
  rewrite Ex, Ey, Ez, Fx, Fy, Fz. repeat split; reflexivity.
Qed.

End DistanceExtras.

(** ** The further theorems at concrete values *)

Lemma Atom_init_outcomes_witness :
  Element_init (Sym "xx") = Raise (InvalidElement "Xx") /\
  Atom_init example_magmom class_Atom (Sym "xx") (mkVec3 0 0 0) None None
            None 1 None = Raise (InvalidElement "Xx") /\
  Element_init (Sym "h") = Ok (mkElement "H") /\
  exists a,
    Atom_init example_magmom class_Atom (Sym "h") (mkVec3 0 0 0) None None
              (Some (Moment 2)) 1 None = Ok a /\
    as_Element a = mkElement "H" /\ magmom a = Moment 2.
Proof.
  split; [reflexivity|]. split.
  - apply (Atom_init_outcomes example_magmom class_Atom (Sym "xx")).
    reflexivity.
  - split; [reflexivity|].
    apply (Atom_init_outcomes example_magmom class_Atom (Sym "h")
             (mkVec3 0 0 0) None None (Some (Moment 2)) 1 None);
      reflexivity.
Defined.

Lemma Atom_transform_composes_witness :
  Atom_init example_magmom class_Atom (Sym "h") (mkVec3 0.5 0.25 2)
            None None None 1 (Some 7) = Ok hydrogen_atom /\
  exists n1 n2,
    Atom_transform example_magmom hydrogen_atom [M3 eye3] = Ok (hydrogen_atom, n1) /\
    Atom_transform example_magmom n1 [M3 eye3] = Ok (n1, n2) /\
    Atom_transform example_magmom hydrogen_atom ([M3 eye3] ++ [M3 eye3])%list
      = Ok (hydrogen_atom, n2) /\
    coords_fractional n2
      = fold_left (fun c m => transform m c) ([M3 eye3] ++ [M3 eye3])%list
                  (coords_fractional hydrogen_atom).
Proof.
  split; [reflexivity|].
  apply (Atom_transform_composes example_magmom class_Atom (Sym "h")
           (mkVec3 0.5 0.25 2) None None None 1 (Some 7)).
  reflexivity.
Defined.

Lemma Atom_hash_key_respects_values_witness :
  exists k1 k2,
    Atom_hash_key hydrogen_atom = Ok k1 /\
    Atom_hash_key (mkAtom (class_subclass "Site") (mkElement "H")
                     (mkVec3 (2 # 4) (1 # 4) (4 # 2)) (mkLattice eye3_basis)
                     (mkVec3 0 0 0) (Moment (2 # 2)) (1 # 2) None) = Ok k2 /\
    hash_key_eqb exact_Lattice_eq k1 k2 = true /\
    Atom_eq exact_Lattice_eq hydrogen_atom
      (mkAtom (class_subclass "Site") (mkElement "H")
         (mkVec3 (2 # 4) (1 # 4) (4 # 2)) (mkLattice eye3_basis)
         (mkVec3 0 0 0) (Moment (2 # 2)) (1 # 2) None) = true.
Proof.
  eexists.
  assert (H : Atom_hash_key hydrogen_atom = Ok _) by reflexivity.
  destruct (Atom_hash_key_respects_values exact_Lattice_eq hydrogen_atom
              (mkAtom (class_subclass "Site") (mkElement "H")
                 (mkVec3 (2 # 4) (1 # 4) (4 # 2)) (mkLattice eye3_basis)
                 (mkVec3 0 0 0) (Moment (2 # 2)) (1 # 2) None) _
              eq_refl eq_refl
              (conj eq_refl (conj eq_refl eq_refl)) eq_refl
              (conj eq_refl (conj eq_refl eq_refl)) H)
    as (k2 & Hk2 & Hkeys & Heq).
  exists k2. split; [exact H|]. split; [exact Hk2|]. split; assumption.
Defined.


Lemma is_element_compares_elements_witness :
  Element_init (Num 1) = Ok (mkElement "H") /\
  Atom_init example_magmom class_Atom (Sym "h") (mkVec3 0.5 0.25 2)
            None None None 1 (Some 7) = Ok hydrogen_atom /\
  exists f,
    is_element (FromArg (Num 1)) = Ok f /\
    is_element (FromElement (mkElement "H")) = Ok f /\
    f hydrogen_atom
      = Ok (Element_eq (as_Element hydrogen_atom) (mkElement "H")).
Proof.
  split; [reflexivity|]. split; [reflexivity|].
  apply (is_element_compares_elements example_magmom (Num 1) (mkElement "H")
           class_Atom (Sym "h") (mkVec3 0.5 0.25 2) None None None 1 (Some 7));
    reflexivity.
Defined.

Lemma Atom_array_exports_witness :
  Atom_init example_magmom class_Atom (Sym "h") (mkVec3 0.5 0.25 2)
            None None None 1 (Some 7) = Ok hydrogen_atom /\
  exists n,
    Atom_array hydrogen_atom
      = Ok (mkVec4 (inject_Z n) (vx (mkVec3 0.5 0.25 2))
                   (vy (mkVec3 0.5 0.25 2)) (vz (mkVec3 0.5 0.25 2))) /\
    Element_init (Num n) = Ok (as_Element hydrogen_atom) /\
    (forall z, Sym "h" = Num z -> n = z).
Proof.
  split; [reflexivity|].
  apply (Atom_array_exports example_magmom class_Atom (Sym "h")
           (mkVec3 0.5 0.25 2) None None None 1 (Some 7)).
  reflexivity.
Defined.

Lemma distance_sign_and_zero_witness :
  exists d,
    (distance_fractional exact_Lattice_eq hydrogen_atom
       (mkAtom class_Atom (mkElement "He") (mkVec3 0.5 0.25 2)
               (mkLattice eye3_basis) (mkVec3 0 0 0) (Moment 0) 1 None)
     = Ok d \/
     distance_cartesian exact_Lattice_eq hydrogen_atom
       (mkAtom class_Atom (mkElement "He") (mkVec3 0.5 0.25 2)
               (mkLattice eye3_basis) (mkVec3 0 0 0) (Moment 0) 1 None)
     = Ok d) /\
    (0 <= d)%R /\ d = 0%R.
Proof.
  eexists.
  assert (H : distance_fractional exact_Lattice_eq hydrogen_atom
                (mkAtom class_Atom (mkElement "He") (mkVec3 0.5 0.25 2)
                        (mkLattice eye3_basis) (mkVec3 0 0 0) (Moment 0) 1
                        None) = Ok _) by reflexivity.
  split; [left; exact H|].
  destruct (distance_sign_and_zero exact_Lattice_eq _ _ _ (or_introl H))
    as [Hpos Hzero].
  split; [exact Hpos|apply Hzero; reflexivity].
Defined.

Lemma distance_on_identity_lattice_witness :
  lattice hydrogen_atom = mkLattice eye3_basis /\
  lattice helium_atom = mkLattice eye3_basis /\
  (exists c, coords_cartesian hydrogen_atom = Ok c /\
             vec3_equiv c (coords_fractional hydrogen_atom)) /\
  distance_cartesian exact_Lattice_eq hydrogen_atom helium_atom
    = distance_fractional exact_Lattice_eq hydrogen_atom helium_atom.
Proof.
  split; [reflexivity|]. split; [reflexivity|].
  apply (distance_on_identity_lattice exact_Lattice_eq hydrogen_atom
           helium_atom); reflexivity.
Defined.
